(** * lodastack agent: kernel metrics (agent/sysinfo/kernel_linux.go)
      and address classification (agent/common/ip.go)

    A shallow embedding of the wtmp decoder, the record normaliser, the three
    metric collectors and [IsIntranet], followed by the properties of the
    design document that can be stated over them.

    Conventions.
    - A Go fixed-width integer is a [Z] inside its range; every operation
      that can leave the range is followed by an explicit wrap.
    - [[]byte] is [list byte]; a Go [string] is a [string] (a sequence of
      8-bit characters).
    - [map[string]T] is [gmap string T]; reading a missing key gives the zero
      value of [T].
    - A pointer [*T] that may be nil is [option T].
    - A function that logs, or that may panic, runs in the monad [Exec]. *)

From Stdlib Require Import ZArith String Ascii Strings.Byte Lia.
From Stdlib Require DecimalString HexadecimalString DecimalN HexadecimalN.
From stdpp Require Import base option list gmap strings.

Local Open Scope Z_scope.

(** ** The parts of the Go runtime and standard library the code relies on *)

Module Go.

(** *** Fixed-width integers *)

Definition wrap_signed (w : Z) (x : Z) : Z :=
  let m := x mod 2 ^ w in
  if m <? 2 ^ (w - 1) then m else m - 2 ^ w.

Definition wrap_unsigned (w : Z) (x : Z) : Z := x mod 2 ^ w.

Definition int16 (x : Z) : Z := wrap_signed 16 x.
Definition int32 (x : Z) : Z := wrap_signed 32 x.
Definition int64 (x : Z) : Z := wrap_signed 64 x.
Definition uint64 (x : Z) : Z := wrap_unsigned 64 x.

Definition is_int32 (x : Z) : Prop := - 2 ^ 31 <= x < 2 ^ 31.

(** *** Errors *)

Inductive error : Type :=
| EOF                       (* io.EOF *)
| ErrUnexpectedEOF          (* io.ErrUnexpectedEOF *)
| ErrSyntax                 (* strconv.ErrSyntax *)
| ErrRange                  (* strconv.ErrRange *)
| ErrOther (msg : string).  (* any other error value *)

Definition error_eqb (a b : error) : bool :=
  match a, b with
  | EOF, EOF | ErrUnexpectedEOF, ErrUnexpectedEOF
  | ErrSyntax, ErrSyntax | ErrRange, ErrRange => true
  | ErrOther x, ErrOther y => String.eqb x y
  | _, _ => false
  end.

(** *** Panics, the log, and the monad of effectful code *)

Inductive panic : Type :=
| NilDereference            (* invalid memory address or nil pointer dereference *)
| IndexOutOfRange.          (* index out of range *)

Inductive LogLine : Type :=
| LogError (msg : string) (err : error)   (* log.Error(msg, err) *)
| LogErrorf (line : string).              (* log.Errorf(format, ...) after formatting *)

Inductive outcome (A : Type) : Type :=
| Done (a : A)
| Panicked (p : panic).
Arguments Done {A} a.
Arguments Panicked {A} p.

(** A computation reads and extends the log and either finishes or panics;
    what was logged before a panic stays logged. *)
Definition Exec (A : Type) : Type := list LogLine -> outcome A * list LogLine.

Definition ret {A} (a : A) : Exec A := fun lg => (Done a, lg).

Definition bind {A B} (c : Exec A) (k : A -> Exec B) : Exec B :=
  fun lg =>
    match c lg with
    | (Done a, lg') => k a lg'
    | (Panicked p, lg') => (Panicked p, lg')
    end.

Definition throw {A} (p : panic) : Exec A := fun lg => (Panicked p, lg).

Definition log_Error (msg : string) (err : error) : Exec unit :=
  fun lg => (Done tt, lg ++ [LogError msg err]).

Definition log_Errorf (line : string) : Exec unit :=
  fun lg => (Done tt, lg ++ [LogErrorf line]).

(** Running a collector from an empty log. *)
Definition run {A} (c : Exec A) : outcome A * list LogLine := c [].

#[global] Instance Exec_ret : MRet Exec := @ret.
#[global] Instance Exec_bind : MBind Exec := fun A B k c => bind c k.

(** *** Conversion of a byte to a string

    [string(b)] for a byte [b] is the UTF-8 encoding of the code point [b]:
    the byte itself below 0x80, and the two bytes
    [0xC0 | b>>6], [0x80 | b&0x3F] from 0x80 on. *)

Definition byte_of_Z (z : Z) : byte := default x00 (Byte.of_N (Z.to_N z)).

Definition string_of_code (b : byte) : string :=
  let n := Z.of_N (Byte.to_N b) in
  if n <? 0x80 then string_of_list_byte [b]
  else string_of_list_byte
         [byte_of_Z (Z.lor 0xC0 (Z.shiftr n 6)); byte_of_Z (Z.lor 0x80 (Z.land n 0x3F))].

(** *** package fmt: the verbs %d and %x on integers *)

Definition digits_d (n : N) : string :=
  DecimalString.NilEmpty.string_of_uint (N.to_uint n).

Definition digits_x (n : N) : string :=
  HexadecimalString.NilEmpty.string_of_uint (N.to_hex_uint n).

Definition fmt_d (x : Z) : string :=
  if x <? 0 then String "-" (digits_d (Z.to_N (- x))) else digits_d (Z.to_N x).

Definition fmt_x (x : Z) : string :=
  if x <? 0 then String "-" (digits_x (Z.to_N (- x))) else digits_x (Z.to_N x).

(** *** package bytes *)

(** bytes.IndexByte: index of the first [c] in [b], or -1. *)
Fixpoint IndexByte (b : list byte) (c : byte) : Z :=
  match b with
  | [] => -1
  | x :: b' =>
      if Byte.eqb x c then 0
      else let n := IndexByte b' c in if n =? -1 then -1 else n + 1
  end.

(** The white space of ASCII, as in the table [asciiSpace] of package bytes. *)
Definition asciiSpace (c : byte) : bool :=
  match ascii_of_byte c with
  | " "%char | "009"%char | "010"%char | "011"%char | "012"%char | "013"%char => true
  | _ => false
  end.

(** bytes.Fields on ASCII input: the maximal runs of bytes that are not
    white space. [cur] is the field being collected. *)
Fixpoint Fields_from (cur : list byte) (s : list byte) : list (list byte) :=
  match s with
  | [] => match cur with [] => [] | _ => [cur] end
  | c :: s' =>
      if asciiSpace c
      then match cur with [] => Fields_from [] s' | _ => cur :: Fields_from [] s' end
      else Fields_from (cur ++ [c]) s'
  end.

Definition asciiFields (s : list byte) : list (list byte) := Fields_from [] s.

(** *** package strings *)

Definition HasPrefix (s p : string) : bool := String.prefix p s.

(** strings.Split for a separator of one character: the pieces between the
    occurrences of [sep], one more piece than there are occurrences. *)
Fixpoint Split_from (cur : string) (s : string) (sep : ascii) : list string :=
  match s with
  | EmptyString => [cur]
  | String c s' =>
      if Ascii.eqb c sep
      then cur :: Split_from EmptyString s' sep
      else Split_from (cur +:+ String c EmptyString) s' sep
  end.

Definition Split (s : string) (sep : ascii) : list string :=
  Split_from EmptyString s sep.

(** *** package strconv: ParseInt(s, 10, 64) *)

Definition is_digit (c : ascii) : bool :=
  (48 <=? Z.of_nat (nat_of_ascii c)) && (Z.of_nat (nat_of_ascii c) <=? 57).

Definition digit_val (c : ascii) : Z := Z.of_nat (nat_of_ascii c) - 48.

Definition maxUint64 : Z := 2 ^ 64 - 1.

(** The loop of ParseUint for base 10 and 64 bits, [n] the value so far. *)
Fixpoint ParseUint_from (s : string) (n : Z) : error + Z :=
  match s with
  | EmptyString => inr n
  | String c s' =>
      if is_digit c then
        if n >=? maxUint64 / 10 + 1 then inl ErrRange
        else
          let n10 := uint64 (n * 10) in
          let n1 := uint64 (n10 + digit_val c) in
          if (n1 <? n10) || (n1 >? maxUint64) then inl ErrRange
          else ParseUint_from s' n1
      else inl ErrSyntax
  end.

Definition ParseUint (s : string) : error + Z :=
  match s with
  | EmptyString => inl ErrSyntax
  | _ => ParseUint_from s 0
  end.

Definition ParseInt (s : string) : error + Z :=
  match s with
  | EmptyString => inl ErrSyntax
  | String c s' =>
      let neg := Ascii.eqb c "-" in
      let body := if Ascii.eqb c "+" || neg then s' else s in
      match ParseUint body with
      | inl e => inl e
      | inr un =>
          if negb neg && (un >=? 2 ^ 63) then inl ErrRange
          else if neg && (un >? 2 ^ 63) then inl ErrRange
          else inr (if neg then int64 (- int64 un) else int64 un)
      end
  end.

(** *** package time: instants and durations in nanoseconds *)

Definition Time : Type := Z.       (* nanoseconds since the Unix epoch *)
Definition Duration : Type := Z.   (* nanoseconds *)

Definition Second : Duration := 1000000000.
Definition Minute : Duration := 60 * Second.

Definition Unix (sec nsec : Z) : Time := sec * Second + nsec.
Definition Time_Unix (t : Time) : Z := t / Second.
Definition Time_Add (t : Time) (d : Duration) : Time := t + d.
Definition Time_After (t u : Time) : bool := u <? t.

(** *** package net: addresses and interfaces *)

(** A [net.IP] is a slice of bytes, four for IPv4 and sixteen for IPv6; the
    nil slice is [[]]. Every test below gives the same answer for an empty
    slice that is not nil as for nil. *)
Definition IPv4len : nat := 4.
Definition IPv6len : nat := 16.

Definition byte_is (b : byte) (v : Z) : bool := Z.of_N (Byte.to_N b) =? v.

(** [ip[i]], read where the length has been checked. *)
Definition at_ (ip : list byte) (i : nat) : byte := nth i ip x00.

Definition isZeros (p : list byte) : bool := forallb (fun b => byte_is b 0) p.

Definition bytes_Equal (a b : list byte) : bool :=
  (length a =? length b)%nat &&
  forallb (fun xy => Byte.eqb (fst xy) (snd xy)) (zip a b).

Definition v4InV6Prefix : list byte := repeat x00 10 ++ [xff; xff].
Definition IPv6loopback : list byte := repeat x00 15 ++ [x01].

Definition To4 (ip : list byte) : list byte :=
  if (length ip =? IPv4len)%nat then ip
  else if (length ip =? IPv6len)%nat && isZeros (take 10 ip)
          && byte_is (at_ ip 10) 0xff && byte_is (at_ ip 11) 0xff
       then take 4 (drop 12 ip)
       else [].

Definition is_nil (ip : list byte) : bool :=
  match ip with [] => true | _ => false end.

Definition IP_Equal (ip x : list byte) : bool :=
  if (length ip =? length x)%nat then bytes_Equal ip x
  else if (length ip =? IPv4len)%nat && (length x =? IPv6len)%nat
       then bytes_Equal (take 12 x) v4InV6Prefix && bytes_Equal ip (drop 12 x)
  else if (length ip =? IPv6len)%nat && (length x =? IPv4len)%nat
       then bytes_Equal (take 12 ip) v4InV6Prefix && bytes_Equal (drop 12 ip) x
  else false.

Definition IsLoopback (ip : list byte) : bool :=
  let ip4 := To4 ip in
  if negb (is_nil ip4) then byte_is (at_ ip4 0) 127
  else IP_Equal ip IPv6loopback.

Definition IsLinkLocalMulticast (ip : list byte) : bool :=
  let ip4 := To4 ip in
  if negb (is_nil ip4)
  then byte_is (at_ ip4 0) 224 && byte_is (at_ ip4 1) 0 && byte_is (at_ ip4 2) 0
  else (length ip =? IPv6len)%nat && byte_is (at_ ip 0) 0xff
       && (Z.land (Z.of_N (Byte.to_N (at_ ip 1))) 0x0f =? 0x02).

Definition IsLinkLocalUnicast (ip : list byte) : bool :=
  let ip4 := To4 ip in
  if negb (is_nil ip4)
  then byte_is (at_ ip4 0) 169 && byte_is (at_ ip4 1) 254
  else (length ip =? IPv6len)%nat && byte_is (at_ ip 0) 0xfe
       && (Z.land (Z.of_N (Byte.to_N (at_ ip 1))) 0xc0 =? 0x80).

(** [ip.String()] on an address of four bytes, the dotted decimal form. It
    is called on the result of [To4] only. *)
Definition IP_String (ip : list byte) : string :=
  fmt_d (Z.of_N (Byte.to_N (at_ ip 0))) +:+ "." +:+
  fmt_d (Z.of_N (Byte.to_N (at_ ip 1))) +:+ "." +:+
  fmt_d (Z.of_N (Byte.to_N (at_ ip 2))) +:+ "." +:+
  fmt_d (Z.of_N (Byte.to_N (at_ ip 3))).

(** An address of an interface: a [*net.IPNet], a [*net.IPAddr], or a value
    of another type. The mask and the zone are not read. *)
Inductive Addr : Type :=
| IPNet (ip : list byte)
| IPAddr (ip : list byte)
| OtherAddr.

(** A [net.Interface] with what its method [Addrs] returns. *)
Record Interface : Type := mkInterface {
  if_Name : string;
  if_Flags : Z;
  if_Addrs : error + list Addr
}.

Definition FlagUp : Z := 1.
Definition FlagLoopback : Z := 4.

End Go.

(** ** package common *)

Module Common.
Import Go.

(** A metric value is an [interface{}] in the collectors: an untyped
    constant, an [int64] counter, a [uint64] kernel counter, or the
    [float64] computed by
    [SetPrecision(float64(allocated)*100/float64(max), 2)], which is kept
    symbolic. *)
Inductive MetricValue : Type :=
| VInt (n : Z)
| VInt64 (n : Z)
| VUint64 (n : Z)
| VPercent (allocated max : Z).

Record Metric : Type := mkMetric {
  Name : string;
  Value : MetricValue;
  Timestamp : Z;
  Tags : gmap string string
}.

(** Assignments to a field of the struct. *)
Definition set_Name (v : string) (m : Metric) : Metric :=
  {| Name := v; Value := Value m; Timestamp := Timestamp m; Tags := Tags m |}.
Definition set_Value (v : MetricValue) (m : Metric) : Metric :=
  {| Name := Name m; Value := v; Timestamp := Timestamp m; Tags := Tags m |}.
Definition set_Timestamp (v : Z) (m : Metric) : Metric :=
  {| Name := Name m; Value := Value m; Timestamp := v; Tags := Tags m |}.
Definition set_Tags (v : gmap string string) (m : Metric) : Metric :=
  {| Name := Name m; Value := Value m; Timestamp := Timestamp m; Tags := v |}.

(** [p.f = v] through a pointer [p]: a nil [p] panics. *)
Definition store (p : option Metric) (upd : Metric -> Metric) : Exec (option Metric) :=
  match p with
  | None => throw NilDereference
  | Some m => ret (Some (upd m))
  end.

(** ip.go, IsIntranet. *)
Definition IsIntranet (ipStr : string) : bool :=
  if HasPrefix ipStr "10." || HasPrefix ipStr "192.168." then true
  else if HasPrefix ipStr "172." then
    let arr := Split ipStr "." in
    if negb (length arr =? 4)%nat then false
    else
      match ParseInt (nth 1 arr EmptyString) with
      | inl _ => false
      | inr second => (second >=? 16) && (second <=? 31)
      end
  else false.

(** ip.go, HasInterfacePrefix. [IfacePrefix] is Conf.IfacePrefix, the
    configured prefixes. *)
Fixpoint HasInterfacePrefix (IfacePrefix : list string) (ifacename : string) : bool :=
  match IfacePrefix with
  | [] => false
  | prefix :: rest =>
      if HasPrefix ifacename prefix then true
      else HasInterfacePrefix rest ifacename
  end.

(** ip.go, IP: the body of the loop over the addresses of one interface. *)
Definition IP_addr (ips : list string) (addr : Addr) : list string :=
  let ip := match addr with
            | IPNet ip => ip
            | IPAddr ip => ip
            | OtherAddr => []
            end in
  if is_nil ip || IsLoopback ip || IsLinkLocalMulticast ip || IsLinkLocalUnicast ip
  then ips                                                   (* continue *)
  else
    let ip := To4 ip in
    if is_nil ip then ips                                    (* not an ipv4 address *)
    else ips ++ [IP_String ip].

(** The loop over the interfaces, [ips] the addresses appended so far. *)
Fixpoint IP_ifaces (IfacePrefix : list string) (ifaces : list Interface)
    (ips : list string) : list string * option error :=
  match ifaces with
  | [] => (ips, None)
  | iface :: rest =>
      if Z.land (if_Flags iface) FlagUp =? 0 then
        IP_ifaces IfacePrefix rest ips                       (* interface down *)
      else if negb (Z.land (if_Flags iface) FlagLoopback =? 0) then
        IP_ifaces IfacePrefix rest ips                       (* loopback interface *)
      else if negb (HasInterfacePrefix IfacePrefix (if_Name iface)) then
        IP_ifaces IfacePrefix rest ips
      else
        match if_Addrs iface with
        | inl e => (ips, Some e)
        | inr addrs => IP_ifaces IfacePrefix rest (foldl IP_addr ips addrs)
        end
  end.

(** [Interfaces] is what net.Interfaces() returns. *)
Definition IP (IfacePrefix : list string) (Interfaces : error + list Interface)
  : list string * option error :=
  match Interfaces with
  | inl e => ([], Some e)
  | inr ifaces => IP_ifaces IfacePrefix ifaces []
  end.

End Common.

(** ** package sysinfo, kernel_linux.go *)

Module Sysinfo.
Import Go Common.

(** *** The utmp structures *)

Definition LineSize : nat := 32.
Definition NameSize : nat := 32.
Definition HostSize : nat := 256.

Record ExitStatus : Type := mkExitStatus {
  Termination : Z;   (* int16 *)
  Exit : Z           (* int16 *)
}.

Record TimeVal : Type := mkTimeVal {
  Sec : Z;           (* int32 *)
  Usec : Z           (* int32 *)
}.

Record Utmp : Type := mkUtmp {
  u_Type : Z;                 (* int16 *)
  u_Pid : Z;                  (* int32 *)
  u_Device : list byte;       (* [LineSize]byte *)
  u_Id : list byte;           (* [4]byte *)
  u_User : list byte;         (* [NameSize]byte *)
  u_Host : list byte;         (* [HostSize]byte *)
  u_Exit : ExitStatus;
  u_Session : Z;              (* int32 *)
  u_Time : TimeVal;
  u_Addr : Z * Z * Z * Z;     (* [4]int32 *)
  u_Reserved : list byte      (* [20]byte *)
}.

(** binary.Size of [Utmp]: 2 + 2 + 4 + 32 + 4 + 32 + 256 + 4 + 4 + 8 + 16 + 20. *)
Definition recordSize : nat := 384.

(** *** binary.Read(file, binary.LittleEndian, u) *)

Definition le_uint (bs : list byte) : Z :=
  foldr (fun b acc => Z.of_N (Byte.to_N b) + 256 * acc) 0 bs.

Definition le_int16 (bs : list byte) : Z := int16 (le_uint bs).
Definition le_int32 (bs : list byte) : Z := int32 (le_uint bs).

Definition slice (off len : nat) (b : list byte) : list byte := take len (drop off b).

(** The fields in declaration order; the two bytes of the blank field after
    [Type] are skipped. *)
Definition decodeUtmp (b : list byte) : Utmp :=
  {| u_Type := le_int16 (slice 0 2 b);
     u_Pid := le_int32 (slice 4 4 b);
     u_Device := slice 8 LineSize b;
     u_Id := slice 40 4 b;
     u_User := slice 44 NameSize b;
     u_Host := slice 76 HostSize b;
     u_Exit := {| Termination := le_int16 (slice 332 2 b);
                  Exit := le_int16 (slice 334 2 b) |};
     u_Session := le_int32 (slice 336 4 b);
     u_Time := {| Sec := le_int32 (slice 340 4 b);
                  Usec := le_int32 (slice 344 4 b) |};
     u_Addr := (le_int32 (slice 348 4 b), le_int32 (slice 352 4 b),
                le_int32 (slice 356 4 b), le_int32 (slice 360 4 b));
     u_Reserved := slice 364 20 b |}.

(** [readLine]: binary.Read fills a buffer of [recordSize] bytes with
    io.ReadFull, which gives io.EOF when no byte is left and
    io.ErrUnexpectedEOF when some, but too few, are. The stream after the
    call is the second component. The stream is the content of the file: a
    read that fails for another reason than its end is not modelled. *)
Definition readLine (file : list byte) : (error + Utmp) * list byte :=
  let buf := take recordSize file in
  if (length buf =? 0)%nat then (inl EOF, file)
  else if (length buf <? recordSize)%nat then (inl ErrUnexpectedEOF, drop recordSize file)
  else (inr (decodeUtmp buf), drop recordSize file).

(** The loop of [Read], [us] the records appended so far. Every turn that
    does not leave the loop consumes [recordSize] bytes, so [fuel] turns
    are enough for any stream shorter than [fuel * recordSize] bytes. *)
Fixpoint Read_loop (fuel : nat) (file : list byte) (us : list Utmp)
  : list Utmp * option error :=
  match fuel with
  | O => (us, None)
  | S fuel' =>
      match readLine file with
      | (inl readErr, _) =>
          if error_eqb readErr EOF then (us, None)      (* break *)
          else ([], Some readErr)                       (* return nil, readErr *)
      | (inr u, file') => Read_loop fuel' file' (us ++ [u])
      end
  end.

Definition Read (file : list byte) : list Utmp * option error :=
  Read_loop (S (length file)) file [].

(** *** The normalised record *)

Record GoExitStatus : Type := mkGoExitStatus {
  g_Termination : Z;
  g_Exit : Z
}.

Record GoUtmp : Type := mkGoUtmp {
  g_Type : Z;
  g_Pid : Z;
  g_Device : string;
  g_Id : string;
  g_User : string;
  g_Host : string;
  g_ExitStatus : GoExitStatus;
  g_Session : Z;
  g_Time : Time;
  g_Addr : string
}.

Definition getByteLen (byteArray : list byte) : Z :=
  let n := IndexByte byteArray x00 in
  if n =? -1 then 0 else n.

(** [string(b[:getByteLen(b[:])])] *)
Definition cstring (b : list byte) : string :=
  string_of_list_byte (take (Z.to_nat (getByteLen b)) b).

Definition addrToString (addr : Z * Z * Z * Z) : string :=
  let '(a0, a1, a2, a3) := addr in
  if (a1 =? 0) && (a2 =? 0) && (a3 =? 0) then
    fmt_d (Z.land a0 0xFF) +:+ "." +:+
    fmt_d (Z.land (Z.shiftr a0 8) 0xFF) +:+ "." +:+
    fmt_d (Z.land (Z.shiftr a0 16) 0xFF) +:+ "." +:+
    fmt_d (Z.land (Z.shiftr a0 24) 0xFF)
  else
    fmt_x (Z.land a0 0xffff) +:+ ":" +:+
    fmt_x (Z.land (Z.shiftr a0 16) 0xffff) +:+ ":" +:+
    fmt_x (Z.land a1 0xffff) +:+ ":" +:+
    fmt_x (Z.land (Z.shiftr a1 16) 0xffff) +:+ ":" +:+
    fmt_x (Z.land a2 0xffff) +:+ ":" +:+
    fmt_x (Z.land (Z.shiftr a2 16) 0xffff) +:+ ":" +:+
    fmt_x (Z.land a3 0xffff) +:+ ":" +:+
    fmt_x (Z.land (Z.shiftr a3 16) 0xffff).

Definition NewGoUtmp (u : Utmp) : GoUtmp :=
  {| g_Type := u_Type u;
     g_Pid := u_Pid u;
     g_Device := cstring (u_Device u);
     g_Id := cstring (u_Id u);
     g_User := cstring (u_User u);
     g_Host := cstring (u_Host u);
     g_ExitStatus := {| g_Termination := Termination (u_Exit u);
                        g_Exit := Exit (u_Exit u) |};
     g_Session := u_Session u;
     g_Time := Unix (int64 (Sec (u_Time u))) 0;
     g_Addr := addrToString (u_Addr u) |}.

(** *** The collectors

    [toMetric] is declared in another file of the package. It builds a
    sample from a name, a value and tags ([nil] tags are the empty map)
    and the collectors only append what it returns. *)

Section Collectors.

Variable toMetric : string -> MetricValue -> gmap string string -> option Metric.

(** bytes.Fields, which cuts the output of ps into tokens. *)
Variable Fields : list byte -> list (list byte).

(** The arguments are what nux.KernelMaxFiles and
    nux.KernelAllocateFiles return in this cycle (both [uint64]). *)
Definition FsKernelMetrics (KernelMaxFiles KernelAllocateFiles : error + Z)
  : Exec (list (option Metric)) :=
  let L := [] in
  match KernelMaxFiles with
  | inl err =>
      _ ← log_Error "failed collect kernel metrics:" err;
      mret L
  | inr maxFiles =>
      let L := L ++ [toMetric "kernel.files.max" (VUint64 maxFiles) ∅] in
      match KernelAllocateFiles with
      | inl err =>
          _ ← log_Error "failed to call KernelAllocateFiles:" err;
          mret L
      | inr allocateFiles =>
          let v := VPercent allocateFiles maxFiles in
          let L := L ++ [toMetric "kernel.files.allocated" (VUint64 allocateFiles) ∅] in
          let L := L ++ [toMetric "kernel.files.allocated.percent" v ∅] in
          let L := L ++ [toMetric "kernel.files.left"
                           (VUint64 (uint64 (maxFiles - allocateFiles))) ∅] in
          mret L
      end
  end.

(** [fields[k]]: a missing key reads as 0. *)
Definition get (fields : gmap string Z) (k : string) : Z := default 0 (fields !! k).

(** [fields[k] = fields[k] + int64(1)] *)
Definition bump (k : string) (fields : gmap string Z) : gmap string Z :=
  <[k := int64 (get fields k + 1)]> fields.

Definition unknown_state_line (c : byte) : string :=
  "processes: Unknown state [ " +:+ string_of_code c +:+ " ] from ps".

(** One turn of the loop over the tokens: [i] is the index of [status]. *)
Definition PsMetrics_step (i : nat) (status : list byte) (fields : gmap string Z)
  : Exec (gmap string Z) :=
  if (i =? 0)%nat && String.eqb (string_of_list_byte status) "STAT" then
    mret fields                                          (* continue *)
  else
    match status with
    | [] => throw IndexOutOfRange                        (* status[0] *)
    | c :: _ =>
        fields ←
          match ascii_of_byte c with
          | "W"%char => mret (bump "wait" fields)
          | "U"%char | "D"%char | "L"%char => mret (bump "blocked" fields)
          | "Z"%char => mret (bump "zombies" fields)
          | "T"%char => mret (bump "stopped" fields)
          | "R"%char => mret (bump "running" fields)
          | "S"%char => mret (bump "sleeping" fields)
          | "I"%char => mret (bump "idle" fields)
          | "X"%char => mret (bump "exit" fields)
          | "?"%char => mret (bump "unknown" fields)
          | _ => _ ← log_Errorf (unknown_state_line c); mret fields
          end;
        mret (bump "total" fields)
    end.

Fixpoint PsMetrics_loop (i : nat) (tokens : list (list byte)) (fields : gmap string Z)
  : Exec (gmap string Z) :=
  match tokens with
  | [] => mret fields
  | status :: rest =>
      fields ← PsMetrics_step i status fields;
      PsMetrics_loop (S i) rest fields
  end.

(** The argument is what [execPS] returns in this cycle. *)
Definition PsMetrics (execPS : error + list byte) : Exec (list (option Metric)) :=
  match execPS with
  | inl err =>
      _ ← log_Error "failed to call ps command:" err;
      mret []
  | inr out =>
      fields ← PsMetrics_loop 0 (Fields out) ∅;
      mret [toMetric "ps.zombies.num" (VInt64 (get fields "zombies")) ∅;
            toMetric "ps.running.num" (VInt64 (get fields "running")) ∅;
            toMetric "ps.total.num" (VInt64 (get fields "total")) ∅]
  end.

End Collectors.

(** The body of the loop of [WtmpMetrics] for one record, [now] being what
    time.Now() returns in this turn. [m] is declared as a pointer and is
    never made to point to a struct before its fields are assigned. *)
Definition WtmpMetrics_step (gu : Utmp) (now : Time) (L : list (option Metric))
  : Exec (list (option Metric)) :=
  let tmp := NewGoUtmp gu in
  if Time_After (g_Time tmp) (Time_Add now (Minute * -5)) then
    let m : option Metric := None in                       (* var m *common.Metric *)
    m ← store m (set_Name "kernel.user.login");
    m ← store m (set_Value (VInt 1));
    m ← store m (set_Timestamp (Time_Unix (g_Time tmp)));
    m ← store m (set_Tags (<["host" := g_Host tmp]> (<["user" := g_User tmp]> ∅)));
    mret (L ++ [m])
  else mret L.

(** [clock i] is the reading of time.Now() in turn [i] of the loop. *)
Fixpoint WtmpMetrics_loop (clock : nat -> Time) (i : nat) (utmps : list Utmp)
    (L : list (option Metric)) : Exec (list (option Metric)) :=
  match utmps with
  | [] => mret L
  | gu :: rest =>
      L ← WtmpMetrics_step gu (clock i) L;
      WtmpMetrics_loop clock (S i) rest L
  end.

(** [wtmp] is what os.Open("/var/log/wtmp") gives: an error, or the
    content of the file. The deferred Close of a nil file returns an error
    that is dropped. *)
Definition WtmpMetrics (wtmp : error + list byte) (clock : nat -> Time)
  : Exec (list (option Metric)) :=
  match wtmp with
  | inl err =>
      _ ← log_Error "open wtmp file failed:" err;
      mret []
  | inr file =>
      match Read file with
      | (_, Some err) =>
          _ ← log_Error "read wtmp file failed:" err;
          mret []
      | (utmps, None) => WtmpMetrics_loop clock 0 utmps []
      end
  end.

End Sysinfo.

(** ** Vocabulary of the design document *)

Module Design.
Import Go Common Sysinfo.

(** Framing is positional: record [n] starts at byte [n * recordSize]. *)
Definition record_at (file : list byte) (n : nat) : Utmp :=
  decodeUtmp (slice (n * recordSize) recordSize file).

Definition records (k : nat) (file : list byte) : list Utmp :=
  map (record_at file) (seq 0 k).

(** Dotted-decimal and colon-separated renderings. *)
Definition dotted (a b c d : Z) : string :=
  fmt_d a +:+ "." +:+ fmt_d b +:+ "." +:+ fmt_d c +:+ "." +:+ fmt_d d.

Fixpoint join (sep : string) (parts : list string) : string :=
  match parts with
  | [] => EmptyString
  | [p] => p
  | p :: rest => p +:+ sep +:+ join sep rest
  end.

(** Component [i] of the IPv4 case. *)
Definition component (w : Z) (i : Z) : Z := Z.land (Z.shiftr w (8 * i)) 0xFF.

(** The low and the high 16 bits of a word. *)
Definition low16 (w : Z) : Z := Z.land w 0xffff.
Definition high16 (w : Z) : Z := Z.land (Z.shiftr w 16) 0xffff.

Definition byte_val (b : byte) : Z := Z.of_N (Byte.to_N b).

(** The counter a process-state code is tallied into. *)
Definition counter_of (c : byte) : option string :=
  match ascii_of_byte c with
  | "W"%char => Some "wait"%string
  | "U"%char | "D"%char | "L"%char => Some "blocked"%string
  | "Z"%char => Some "zombies"%string
  | "T"%char => Some "stopped"%string
  | "R"%char => Some "running"%string
  | "S"%char => Some "sleeping"%string
  | "I"%char => Some "idle"%string
  | "X"%char => Some "exit"%string
  | "?"%char => Some "unknown"%string
  | _ => None
  end.

(** The tokens that stand for processes: all of them, but for a first
    token that is the header STAT. *)
Definition process_tokens (tokens : list (list byte)) : list (list byte) :=
  match tokens with
  | t :: rest => if String.eqb (string_of_list_byte t) "STAT" then rest else tokens
  | [] => []
  end.

(** The state codes of the tokens, the first byte of each. *)
Definition codes (tokens : list (list byte)) : list byte :=
  omap head tokens.

(** How many of the codes are tallied into counter [k]. *)
Definition tally (k : string) (cs : list byte) : Z :=
  Z.of_nat (length (filter (fun c => counter_of c = Some k) cs)).

(** The codes no counter takes, in order. *)
Definition unrecognized (cs : list byte) : list byte :=
  filter (fun c => counter_of c = None) cs.

(** The lines logged for the codes no counter takes. *)
Definition unknown_state_log (cs : list byte) : list LogLine :=
  map (fun c => LogErrorf (unknown_state_line c)) (unrecognized cs).

(** An output of ps: a header, five processes, one in a state Q that the
    collector does not know. *)
Definition ps_output : list byte :=
  list_byte_of_string "STAT
R
S
Ss
Q
Z
".

(** Test vectors: a wtmp record of type UserProcess with the given user,
    host and seconds, laid out as the decoder expects it. *)
Definition le_bytes (n : nat) (x : Z) : list byte :=
  map (fun i => default x00 (Byte.of_N (Z.to_N ((x / 2 ^ (8 * Z.of_nat i)) mod 256))))
      (seq 0 n).

Definition padded (n : nat) (s : string) : list byte :=
  take n (list_byte_of_string s ++ repeat x00 n).

Definition login_record (user host : string) (sec : Z) : list byte :=
  le_bytes 2 7 ++ repeat x00 2 ++ le_bytes 4 4242 ++
  padded LineSize "pts/0" ++ padded 4 "ts/0" ++
  padded NameSize user ++ padded HostSize host ++
  le_bytes 2 0 ++ le_bytes 2 0 ++ le_bytes 4 4242 ++
  le_bytes 4 sec ++ le_bytes 4 0 ++
  le_bytes 4 0x0700000A ++ repeat x00 12 ++ repeat x00 20.

Definition two_logins : list byte :=
  login_record "root" "10.0.0.7" 1700000000 ++ login_record "ann" "" 1700000100.

(** The same stream with three more bytes, the start of a record that was
    never finished. *)
Definition truncated_logins : list byte := two_logins ++ [x07; x00; x00]%byte.

(** The first record of [two_logins] with other alignment bytes, other
    microseconds and other reserved bytes. *)
Definition noisy_login : list byte :=
  take 2 two_logins ++ [xaa; xbb]%byte ++ slice 4 340 two_logins ++
  [x01; x02; x03; x04]%byte ++ slice 348 16 two_logins ++ repeat xcc 20.

(** A record is inside the recency window at [now]. *)
Definition recent (now : Time) (u : Utmp) : Prop :=
  now - 5 * Minute < Sec (u_Time u) * Second.

(** Modelled from the spec: [toMetric] is declared in a file of the
    package that is not among the sources. A metric sample has a name, a
    numeric value, a unix timestamp and tags; [toMetric_at now] builds the
    sample stamped [now]. *)
Definition toMetric_at (now : Z) (name : string) (value : MetricValue)
    (tags : gmap string string) : option Metric :=
  Some {| Name := name; Value := value; Timestamp := now; Tags := tags |}.

(** The sample the design document asks for a login record. *)
Definition login_sample (u : Utmp) : Metric :=
  {| Name := "kernel.user.login";
     Value := VInt 1;
     Timestamp := Sec (u_Time u);
     Tags := <["host" := cstring (u_Host u)]> (<["user" := cstring (u_User u)]> ∅) |}.

(** The character [c] does not occur in [s]. *)
Definition lacks (c : ascii) (s : string) : Prop :=
  Forall (fun x => x <> c) (list_ascii_of_string s).

(** The four words of a raw address are [int32]. *)
Definition is_addr (addr : Z * Z * Z * Z) : Prop :=
  let '(a0, a1, a2, a3) := addr in
  is_int32 a0 /\ is_int32 a1 /\ is_int32 a2 /\ is_int32 a3.

(** The private ranges 10/8, 192.168/16 and 172.16/12, on the first two
    components of an address. *)
Definition private_range (a b : Z) : bool :=
  (a =? 10) || ((a =? 192) && (b =? 168)) || ((a =? 172) && (16 <=? b) && (b <=? 31)).

(** The address an [Addr] carries, nil for the types that carry none. *)
Definition ip_of (addr : Addr) : list byte :=
  match addr with
  | IPNet ip => ip
  | IPAddr ip => ip
  | OtherAddr => []
  end.

(** An interface whose addresses are looked at: up, not a loopback, and
    with a name that has a configured prefix. *)
Definition considered (IfacePrefix : list string) (iface : Interface) : bool :=
  negb (Z.land (if_Flags iface) FlagUp =? 0) &&
  (Z.land (if_Flags iface) FlagLoopback =? 0) &&
  HasInterfacePrefix IfacePrefix (if_Name iface).

(** What an address contributes: the dotted quad of its IPv4 form, unless
    that is in 127/8, 169.254/16 or 224.0.0/24. *)
Definition reported (addr : Addr) : option string :=
  match To4 (ip_of addr) with
  | [a; b; c; d] =>
      if byte_is a 127 || (byte_is a 169 && byte_is b 254)
         || (byte_is a 224 && byte_is b 0 && byte_is c 0)
      then None
      else Some (IP_String [a; b; c; d])
  | _ => None
  end.

(** The addresses of an interface, none when the call fails. *)
Definition addrs_of (iface : Interface) : list Addr :=
  match if_Addrs iface with
  | inl _ => []
  | inr addrs => addrs
  end.

Definition addrs_fail (iface : Interface) : Prop :=
  exists e, if_Addrs iface = inl e.

(** What the considered interfaces of a list contribute, in order. *)
Definition reported_of (IfacePrefix : list string) (ifaces : list Interface)
  : list string :=
  flat_map (fun iface => omap reported (addrs_of iface))
           (filter (fun iface => considered IfacePrefix iface = true) ifaces).

(** Test vectors: a loopback, an Ethernet interface with a private address,
    a link-local IPv6 address, a link-local IPv4 address and an IPv4-mapped
    address, a bridge whose addresses cannot be read, and an interface that
    is down. *)
Definition host_interfaces : list Interface :=
  [ {| if_Name := "lo"; if_Flags := 5;
       if_Addrs := inr [IPNet ["127"; "000"; "000"; "001"]%byte] |};
    {| if_Name := "eth0"; if_Flags := 19;
       if_Addrs := inr [IPNet ["010"; "001"; "002"; "003"]%byte;
                        IPNet ([xfe; x80] ++ repeat x00 13 ++ [x01]);
                        IPNet ["169"; "254"; "001"; "001"]%byte;
                        IPAddr (repeat x00 10 ++ [xff; xff; "192"; "168"; "000"; "005"]%byte);
                        OtherAddr] |};
    {| if_Name := "docker0"; if_Flags := 19;
       if_Addrs := inl (ErrOther "route ip+net: no such network interface") |};
    {| if_Name := "eth1"; if_Flags := 2;
       if_Addrs := inr [IPNet ["010"; "009"; "009"; "009"]%byte] |} ].

(** The named counters of the process tally. *)
Definition counter_names : list string :=
  ["wait"; "blocked"; "zombies"; "stopped"; "running"; "sleeping"; "idle";
   "exit"; "unknown"]%string.

(** A value of a signed integer type of [w] bits. *)
Definition is_signed (w : Z) (x : Z) : Prop := - 2 ^ (w - 1) <= x < 2 ^ (w - 1).

(** A raw record as the struct declares it: arrays of the declared sizes,
    integers of the declared widths. *)
Definition is_Utmp (u : Utmp) : Prop :=
  is_signed 16 (u_Type u) /\ is_signed 32 (u_Pid u) /\
  length (u_Device u) = LineSize /\ length (u_Id u) = 4%nat /\
  length (u_User u) = NameSize /\ length (u_Host u) = HostSize /\
  is_signed 16 (Termination (u_Exit u)) /\ is_signed 16 (Exit (u_Exit u)) /\
  is_signed 32 (u_Session u) /\
  is_signed 32 (Sec (u_Time u)) /\ is_signed 32 (Usec (u_Time u)) /\
  is_addr (u_Addr u) /\ length (u_Reserved u) = 20%nat.

End Design.

Import Go Common Sysinfo Design.

(** ** String extraction: [getByteLen] *)

Section ByteLen.

Lemma IndexByte_first (pre post : list byte) (c : byte) :
  c ∉ pre -> IndexByte (pre ++ c :: post) c = Z.of_nat (length pre).
Proof.
  induction pre as [|x pre IH]; intros Hnot; simpl.
  - now rewrite (byte_dec_lb (eq_refl c)).
  - apply not_elem_of_cons in Hnot as [Hne Hrest].
    destruct (Byte.eqb x c) eqn:E.
    + apply byte_dec_bl in E. congruence.
    + rewrite (IH Hrest).
      destruct (Z.of_nat (length pre) =? -1) eqn:E1; lia.
Qed.

Lemma IndexByte_absent (b : list byte) (c : byte) :
  c ∉ b -> IndexByte b c = -1.
Proof.
  induction b as [|x b IH]; intros Hnot; simpl; [reflexivity|].
  apply not_elem_of_cons in Hnot as [Hne Hrest].
  destruct (Byte.eqb x c) eqn:E.
  - apply byte_dec_bl in E. congruence.
  - now rewrite (IH Hrest).
Qed.

Lemma getByteLen_first (pre post : list byte) :
  x00 ∉ pre -> getByteLen (pre ++ x00 :: post) = Z.of_nat (length pre).
Proof.
  intros H. unfold getByteLen. rewrite (IndexByte_first _ _ _ H).
  destruct (Z.of_nat (length pre) =? -1) eqn:E; lia.
Qed.

Lemma getByteLen_absent (b : list byte) : x00 ∉ b -> getByteLen b = 0.
Proof.
  intros H. unfold getByteLen. now rewrite (IndexByte_absent _ _ H).
Qed.

(** C8. String normalisation cuts a buffer at its first null byte, counted
    from offset 0: the bytes before it are the string, so
    ['a','b','c',0,'x','x'] gives "abc" and a buffer that starts with a null
    byte gives the empty string; a buffer without any null byte gives the
    empty string too. [NewGoUtmp] normalises device, id, user and host this
    way. *)
Theorem getByteLen_truncates_at_first_null :
  (forall pre post : list byte,
      x00 ∉ pre ->
      getByteLen (pre ++ x00 :: post) = Z.of_nat (length pre) /\
      cstring (pre ++ x00 :: post) = string_of_list_byte pre) /\
  (forall post : list byte, cstring (x00 :: post) = EmptyString) /\
  (forall b : list byte, x00 ∉ b -> getByteLen b = 0 /\ cstring b = EmptyString) /\
  cstring ["a"; "b"; "c"; x00; "x"; "x"]%byte = "abc"%string /\
  (forall u : Utmp,
      g_Device (NewGoUtmp u) = cstring (u_Device u) /\
      g_Id (NewGoUtmp u) = cstring (u_Id u) /\
      g_User (NewGoUtmp u) = cstring (u_User u) /\
      g_Host (NewGoUtmp u) = cstring (u_Host u)).
Proof.
  split; [|split; [|split; [|split]]].
  - intros pre post H. split; [now apply getByteLen_first|].
    unfold cstring. rewrite (getByteLen_first _ _ H), Nat2Z.id.
    now rewrite take_app_length.
  - intros post. reflexivity.
  - intros b H. split; [now apply getByteLen_absent|].
    unfold cstring. now rewrite (getByteLen_absent _ H).
  - reflexivity.
  - intros u. repeat split.
Qed.

Lemma getByteLen_truncates_witness :
  (x00 ∉ ["r"; "o"; "o"; "t"]%byte) /\
  cstring (["r"; "o"; "o"; "t"] ++ x00 :: ["!"])%byte = "root"%string /\
  cstring ["r"; "o"; "o"; "t"]%byte = EmptyString.
Proof.
  assert (Hnot : x00 ∉ ["r"; "o"; "o"; "t"]%byte).
  { intros H. repeat (apply elem_of_cons in H as [H|H]; [discriminate H|]).
    now apply elem_of_nil in H. }
  split; [exact Hnot|]. split.
  - exact (proj2 (proj1 getByteLen_truncates_at_first_null _ ["!"]%byte Hnot)).
  - exact (proj2 (proj1 (proj2 (proj2 getByteLen_truncates_at_first_null)) _ Hnot)).
Defined.

End ByteLen.

(** ** Address reconstruction: [addrToString] *)

Section Address.

Lemma land_FF (x : Z) : Z.land x 0xFF = x mod 2 ^ 8.
Proof. change 0xFF with (Z.ones 8). apply Z.land_ones. lia. Qed.

Lemma component_div_mod (w i : Z) :
  0 <= i -> component w i = (w / 2 ^ (8 * i)) mod 2 ^ 8.
Proof.
  intros Hi. unfold component. rewrite land_FF, Z.shiftr_div_pow2 by lia. reflexivity.
Qed.

Lemma component_range (w i : Z) : 0 <= i -> 0 <= component w i <= 255.
Proof.
  intros Hi. rewrite component_div_mod by exact Hi.
  pose proof (Z.mod_pos_bound (w / 2 ^ (8 * i)) (2 ^ 8)). lia.
Qed.

Lemma byte_val_range (b : byte) : 0 <= byte_val b < 256.
Proof. unfold byte_val. pose proof (to_N_bounded b). lia. Qed.

(** The four bytes of a little-endian word are its components. *)
Lemma component_le_int32 (a b c d : byte) :
  let w := le_int32 [a; b; c; d] in
  component w 0 = byte_val a /\ component w 1 = byte_val b /\
  component w 2 = byte_val c /\ component w 3 = byte_val d.
Proof.
  intros w. subst w.
  pose proof (byte_val_range a). pose proof (byte_val_range b).
  pose proof (byte_val_range c). pose proof (byte_val_range d).
  rewrite !component_div_mod by lia.
  unfold le_int32, le_uint, int32, wrap_signed. cbn [foldr].
  fold (byte_val a) (byte_val b) (byte_val c) (byte_val d).
  change (2 ^ (8 * 0)) with 1. change (2 ^ (8 * 1)) with 256.
  change (2 ^ (8 * 2)) with 65536. change (2 ^ (8 * 3)) with 16777216.
  change (2 ^ 8) with 256. change (2 ^ 32) with 4294967296.
  change (2 ^ (32 - 1)) with 2147483648.
  generalize dependent (byte_val a). generalize dependent (byte_val b).
  generalize dependent (byte_val c). generalize dependent (byte_val d).
  intros D HD C HC B HB A HA.
  destruct (Z.ltb_spec ((A + 256 * (B + 256 * (C + 256 * (D + 256 * 0))))
                          mod 4294967296) 2147483648);
    repeat split; Z.div_mod_to_equations; lia.
Qed.

Lemma addrToString_ipv4 (w : Z) :
  addrToString (w, 0, 0, 0) =
  dotted (component w 0) (component w 1) (component w 2) (component w 3).
Proof. reflexivity. Qed.

(** C9. Round trip of the IPv4 case. With words 2, 3 and 4 zero, the
    address is rendered as the dotted quad whose component i is
    (w >> (8*i)) & 0xFF of word 1, a number from 0 to 255; so the four
    address bytes a, b, c, d stored in word 1 in little-endian order come
    back as "a.b.c.d", and word 1 = 0x0100007F gives "127.0.0.1".
    [NewGoUtmp] renders the address of a record this way: the record
    encoded with the address bytes 10, 0, 0, 7 is normalised to "10.0.0.7". *)
Theorem addrToString_ipv4_roundtrip :
  (forall w : Z,
      addrToString (w, 0, 0, 0) =
      dotted (component w 0) (component w 1) (component w 2) (component w 3)) /\
  (forall w i : Z, component w i = Z.land (Z.shiftr w (8 * i)) 0xFF) /\
  (forall w : Z,
      0 <= component w 0 <= 255 /\ 0 <= component w 1 <= 255 /\
      0 <= component w 2 <= 255 /\ 0 <= component w 3 <= 255) /\
  (forall a b c d : byte,
      addrToString (le_int32 [a; b; c; d], 0, 0, 0) =
      dotted (byte_val a) (byte_val b) (byte_val c) (byte_val d)) /\
  addrToString (0x0100007F, 0, 0, 0) = "127.0.0.1"%string /\
  (forall u : Utmp, g_Addr (NewGoUtmp u) = addrToString (u_Addr u)) /\
  g_Addr (NewGoUtmp (decodeUtmp (login_record "root" "10.0.0.7" 1700000000))) =
  "10.0.0.7"%string.
Proof.
  split; [|split; [|split; [|split; [|split; [|split]]]]].
  - exact addrToString_ipv4.
  - reflexivity.
  - intros w. repeat split; apply component_range; lia.
  - intros a b c d. rewrite addrToString_ipv4.
    destruct (component_le_int32 a b c d) as (-> & -> & -> & ->). reflexivity.
  - reflexivity.
  - reflexivity.
  - vm_compute. reflexivity.
Qed.

Lemma addrToString_hextets (a0 a1 a2 a3 : Z) :
  ~ (a1 = 0 /\ a2 = 0 /\ a3 = 0) ->
  addrToString (a0, a1, a2, a3) =
  join ":" (map fmt_x [low16 a0; high16 a0; low16 a1; high16 a1;
                       low16 a2; high16 a2; low16 a3; high16 a3]).
Proof.
  intros Hnz. unfold addrToString.
  destruct (Z.eqb_spec a1 0), (Z.eqb_spec a2 0), (Z.eqb_spec a3 0);
    try reflexivity.
  exfalso. apply Hnz. auto.
Qed.

(** C3 (as the code has it). When words 2 to 4 are not all zero the
    address is rendered as eight hextets in the order word1-low,
    word1-high, word2-low, word2-high, word3-low, word3-high, word4-low,
    word4-high. For the field [0, 0, 0, 1] the 1 is the low half of word 4,
    which is the seventh hextet: the string is "0:0:0:0:0:0:1:0", its last
    hextet is "0". *)
Theorem addrToString_ipv6_order :
  (forall a0 a1 a2 a3 : Z,
      ~ (a1 = 0 /\ a2 = 0 /\ a3 = 0) ->
      addrToString (a0, a1, a2, a3) =
      join ":" (map fmt_x [low16 a0; high16 a0; low16 a1; high16 a1;
                           low16 a2; high16 a2; low16 a3; high16 a3])) /\
  addrToString (0, 0, 0, 1) = "0:0:0:0:0:0:1:0"%string /\
  Split (addrToString (0, 0, 0, 1)) ":" =
  ["0"; "0"; "0"; "0"; "0"; "0"; "1"; "0"]%string.
Proof.
  split; [|split].
  - exact addrToString_hextets.
  - reflexivity.
  - reflexivity.
Qed.

Lemma addrToString_ipv6_order_witness :
  ~ (0 = 0 /\ 0 = 0 /\ 0x00010000 = 0) /\
  addrToString (0x20010db8, 0, 0, 0x00010000) =
  join ":" (map fmt_x [0x0db8; 0x2001; 0; 0; 0; 0; 0; 1]).
Proof.
  assert (Hnz : ~ (0 = 0 /\ 0 = 0 /\ 0x00010000 = 0)) by lia.
  split; [exact Hnz|].
  exact (proj1 addrToString_ipv6_order 0x20010db8 0 0 0x00010000 Hnz).
Defined.

(** C3, refuted as stated: the hextets of [0, 0, 0, 1] are not seven "0"
    followed by "1". *)
Lemma addrToString_last_hextet_counterexample :
  Split (addrToString (0, 0, 0, 1)) ":" <>
  ["0"; "0"; "0"; "0"; "0"; "0"; "0"; "1"]%string.
Proof. discriminate. Qed.

End Address.

(** ** Private address ranges: [IsIntranet] *)

Section Intranet.

Lemma HasPrefix_starts_with (s p : string) :
  HasPrefix s p = true <-> exists t : string, s = p +:+ t.
Proof.
  unfold HasPrefix. revert s.
  induction p as [|c p IH]; intros s; simpl.
  - split; [intros _; now exists s | intros _; now destruct s].
  - destruct s as [|d s]; simpl.
    + split; [discriminate | intros [t Ht]; discriminate Ht].
    + destruct (ascii_dec c d) as [->|Hne].
      * rewrite IH. split; intros [t Ht]; exists t.
        -- now rewrite Ht.
        -- change (String d p +:+ t) with (String d (p +:+ t)) in Ht. congruence.
      * split; [discriminate|]. intros [t Ht].
        change (String c p +:+ t) with (String c (p +:+ t)) in Ht. congruence.
Qed.

(** Splitting gives one piece more than there are separators. *)
Lemma length_Split_from (s cur : string) (sep : ascii) :
  length (Split_from cur s sep) =
  S (length (filter (fun c => c = sep) (list_ascii_of_string s))).
Proof.
  revert cur. induction s as [|c s IH]; intros cur; simpl; [reflexivity|].
  destruct (Ascii.eqb_spec c sep) as [->|Hne].
  - rewrite filter_cons_True by reflexivity. simpl. now rewrite IH.
  - rewrite filter_cons_False by exact Hne. apply IH.
Qed.

(** C10. [IsIntranet s] is true exactly when s starts with "10." or with
    "192.168.", or s starts with "172.", splits on '.' into exactly four
    parts (that is, holds exactly three dots) and its second part parses as
    a base-10 integer from 16 to 31. Nothing else is checked: "10.garbage"
    is accepted. *)
Theorem IsIntranet_iff :
  (forall s : string,
      IsIntranet s = true <->
      (exists t, s = "10." +:+ t) \/
      (exists t, s = "192.168." +:+ t) \/
      ((exists t, s = "172." +:+ t) /\
       length (Split s ".") = 4%nat /\
       exists second : Z,
         ParseInt (nth 1 (Split s ".") EmptyString) = inr second /\
         16 <= second <= 31)) /\
  (forall s : string,
      length (Split s ".") =
      S (length (filter (fun c => c = "."%char) (list_ascii_of_string s)))) /\
  IsIntranet "10.garbage" = true.
Proof.
  split; [|split; [|reflexivity]].
  - intros s. rewrite <- !HasPrefix_starts_with. unfold IsIntranet.
    destruct (HasPrefix s "10.") eqn:E10; simpl; [intuition|].
    destruct (HasPrefix s "192.168.") eqn:E192; simpl; [intuition|].
    destruct (HasPrefix s "172.") eqn:E172; simpl;
      [|intuition (try discriminate); destruct H as (Hd & _); discriminate Hd].
    destruct (Nat.eqb_spec (length (Split s ".")) 4) as [Hlen|Hlen]; simpl.
    + destruct (ParseInt (nth 1 (Split s ".") "")) as [e|second] eqn:EP.
      * split; [discriminate|].
        intros [H|[H|(_ & _ & n & Hn & _)]]; discriminate.
      * rewrite andb_true_iff, Z.geb_le, Z.leb_le.
        split.
        -- intros [H1 H2]. right; right. repeat split; trivial.
           exists second. split; [reflexivity|lia].
        -- intros [H|[H|(_ & _ & n & Hn & Hr)]]; try discriminate.
           injection Hn as <-. lia.
    + split; [discriminate|].
      intros [H|[H|(_ & Hl & _)]]; try discriminate. contradiction.
  - intros s. apply length_Split_from.
Qed.

Lemma IsIntranet_iff_witness :
  ((exists t, "172.20.1.9"%string = "172." +:+ t) /\
   length (Split "172.20.1.9" ".") = 4%nat /\
   exists second : Z,
     ParseInt (nth 1 (Split "172.20.1.9" ".") EmptyString) = inr second /\
     16 <= second <= 31) /\
  IsIntranet "172.20.1.9" = true.
Proof.
  assert (H : (exists t, "172.20.1.9"%string = "172." +:+ t) /\
              length (Split "172.20.1.9" ".") = 4%nat /\
              exists second : Z,
                ParseInt (nth 1 (Split "172.20.1.9" ".") EmptyString) = inr second /\
                16 <= second <= 31).
  { split; [now exists "20.1.9"%string|]. split; [reflexivity|].
    exists 20. split; [reflexivity|lia]. }
  split; [exact H|].
  apply (proj2 (proj1 IsIntranet_iff "172.20.1.9"%string)).
  right; right; exact H.
Defined.

End Intranet.

(** ** Kernel file counters: [FsKernelMetrics] *)

Section KernelFiles.

Variable toMetric : string -> MetricValue -> gmap string string -> option Metric.

Lemma FsKernelMetrics_success (maxFiles allocateFiles : Z) :
  run (FsKernelMetrics toMetric (inr maxFiles) (inr allocateFiles)) =
  (Done [toMetric "kernel.files.max" (VUint64 maxFiles) ∅;
         toMetric "kernel.files.allocated" (VUint64 allocateFiles) ∅;
         toMetric "kernel.files.allocated.percent" (VPercent allocateFiles maxFiles) ∅;
         toMetric "kernel.files.left" (VUint64 (uint64 (maxFiles - allocateFiles))) ∅],
   []).
Proof. reflexivity. Qed.

(** C6 (as the code has it). A failure of a kernel-limits call is logged
    and not propagated. When KernelMaxFiles fails, no sample is emitted.
    When KernelMaxFiles succeeds and KernelAllocateFiles fails, exactly
    one sample is emitted, kernel.files.max, which was appended before the
    second call; the samples allocated, allocated.percent and left are
    not. *)
Theorem FsKernelMetrics_on_failure :
  (forall (err : error) (KernelAllocateFiles : error + Z),
      run (FsKernelMetrics toMetric (inl err) KernelAllocateFiles) =
      (Done [], [LogError "failed collect kernel metrics:" err])) /\
  (forall (maxFiles : Z) (err : error),
      run (FsKernelMetrics toMetric (inr maxFiles) (inl err)) =
      (Done [toMetric "kernel.files.max" (VUint64 maxFiles) ∅],
       [LogError "failed to call KernelAllocateFiles:" err])).
Proof. split; reflexivity. Qed.

End KernelFiles.

(** C6, refuted as stated: KernelAllocateFiles fails and a sample is emitted
    all the same. *)
Lemma FsKernelMetrics_skips_group_counterexample :
  ~ (forall (toMetric : string -> MetricValue -> gmap string string -> option Metric)
            (KernelMaxFiles KernelAllocateFiles : error + Z),
        (exists err, KernelMaxFiles = inl err) \/
        (exists err, KernelAllocateFiles = inl err) ->
        fst (run (FsKernelMetrics toMetric KernelMaxFiles KernelAllocateFiles)) = Done []).
Proof.
  intros H.
  specialize (H (toMetric_at 0) (inr 1000) (inl (ErrOther "permission denied"))).
  cbv in H. discriminate H. right. now exists (ErrOther "permission denied").
Qed.

(** ** The binary record reader: [readLine] and [Read] *)

Section Reader.

Lemma readLine_end : readLine [] = (inl EOF, []).
Proof. reflexivity. Qed.

Lemma readLine_record (file : list byte) :
  (recordSize <= length file)%nat ->
  readLine file = (inr (decodeUtmp (take recordSize file)), drop recordSize file).
Proof.
  intros Hlen. unfold readLine.
  rewrite length_take_le by exact Hlen.
  reflexivity.
Qed.

Lemma readLine_short (file : list byte) :
  (0 < length file < recordSize)%nat ->
  readLine file = (inl ErrUnexpectedEOF, drop recordSize file).
Proof.
  intros [Hpos Hlt]. unfold readLine.
  rewrite length_take_ge by lia.
  destruct (Nat.eqb_spec (length file) 0) as [E|_]; [lia|].
  destruct (Nat.ltb_spec (length file) recordSize) as [_|E]; [reflexivity|lia].
Qed.

Lemma record_at_drop (file : list byte) (n : nat) :
  record_at file (S n) = record_at (drop recordSize file) n.
Proof.
  unfold record_at, slice. rewrite drop_drop.
  replace (S n * recordSize)%nat with (recordSize + n * recordSize)%nat by lia.
  reflexivity.
Qed.

Lemma records_S (k : nat) (file : list byte) :
  records (S k) file =
  decodeUtmp (take recordSize file) :: records k (drop recordSize file).
Proof.
  unfold records. cbn [seq map]. f_equal.
  rewrite <- fmap_S_seq, <- list_fmap_compose.
  apply map_ext. intros n. apply record_at_drop.
Qed.

Lemma length_records (k : nat) (file : list byte) : length (records k file) = k.
Proof. unfold records. now rewrite length_map, length_seq. Qed.

(** A stream of [k] whole records: the loop appends them and stops at the
    end of the stream. *)
Lemma Read_loop_whole (k : nat) :
  forall (file : list byte) (us : list Utmp) (fuel : nat),
    length file = (k * recordSize)%nat -> (k < fuel)%nat ->
    Read_loop fuel file us = (us ++ records k file, None).
Proof.
  induction k as [|k IH]; intros file us fuel Hlen Hfuel;
    (destruct fuel as [|fuel]; [lia|]); cbn [Read_loop].
  - destruct file; [|discriminate Hlen].
    rewrite readLine_end. cbn. now rewrite app_nil_r.
  - rewrite readLine_record by lia.
    rewrite IH; [| rewrite length_drop; lia | lia].
    now rewrite records_S, <- app_assoc.
Qed.

(** A stream of [k] whole records and a rest of [r] bytes: the loop meets
    the short read and returns without the records. *)
Lemma Read_loop_truncated (k : nat) :
  forall (file : list byte) (us : list Utmp) (fuel r : nat),
    length file = (k * recordSize + r)%nat -> (0 < r < recordSize)%nat ->
    (k < fuel)%nat ->
    Read_loop fuel file us = ([], Some ErrUnexpectedEOF).
Proof.
  induction k as [|k IH]; intros file us fuel r Hlen Hr Hfuel;
    (destruct fuel as [|fuel]; [lia|]); cbn [Read_loop].
  - rewrite readLine_short by lia. reflexivity.
  - rewrite readLine_record by lia.
    apply (IH _ _ _ r); [rewrite length_drop; lia | exact Hr | lia].
Qed.

Lemma recordSize_pos : (0 < recordSize)%nat.
Proof. unfold recordSize. lia. Qed.

(** [Read] never runs out of fuel: its result is determined by the length
    of the stream. *)
Lemma Read_total (file : list byte) :
  Read file =
  if (length file mod recordSize =? 0)%nat
  then (records (length file / recordSize) file, None)
  else ([], Some ErrUnexpectedEOF).
Proof.
  pose proof recordSize_pos as Hpos.
  pose proof (Nat.div_mod_eq (length file) recordSize) as Hdm.
  pose proof (Nat.mod_upper_bound (length file) recordSize ltac:(lia)) as Hub.
  assert (Hk : (length file / recordSize <= length file)%nat).
  { apply Nat.Div0.div_le_upper_bound. nia. }
  unfold Read.
  destruct (Nat.eqb_spec (length file mod recordSize) 0) as [E|E].
  - rewrite (Read_loop_whole (length file / recordSize)) by lia. reflexivity.
  - now rewrite (Read_loop_truncated (length file / recordSize) _ _ _
                   (length file mod recordSize)) by lia.
Qed.

Lemma Read_whole (file : list byte) (k : nat) :
  length file = (k * recordSize)%nat -> Read file = (records k file, None).
Proof.
  intros Hlen. unfold Read.
  rewrite (Read_loop_whole k) by (unfold recordSize in *; lia). reflexivity.
Qed.

Lemma Read_truncated (file : list byte) (k r : nat) :
  length file = (k * recordSize + r)%nat -> (0 < r < recordSize)%nat ->
  Read file = ([], Some ErrUnexpectedEOF).
Proof.
  intros Hlen Hr. unfold Read.
  apply (Read_loop_truncated k _ _ _ r); [exact Hlen|exact Hr|].
  unfold recordSize in *. lia.
Qed.

(** C7. A stream whose length is an exact multiple of the record size is
    decoded into exactly length / recordSize records, record n being the
    bytes from n * recordSize on, and [Read] returns them without an error:
    the end of the stream at a record boundary ends the sequence cleanly. *)
Theorem Read_whole_records (file : list byte) (k : nat) :
  length file = (k * recordSize)%nat ->
  Read file = (records k file, None) /\
  length (fst (Read file)) = (length file / recordSize)%nat /\
  (forall n : nat, (n < k)%nat -> fst (Read file) !! n = Some (record_at file n)).
Proof.
  intros Hlen.
  pose proof (Read_whole file k Hlen) as HR.
  rewrite HR. cbn [fst]. split; [reflexivity|]. split.
  - rewrite length_records, Hlen. symmetry. apply Nat.div_mul. discriminate.
  - intros n Hn. unfold records.
    rewrite list_lookup_fmap, lookup_seq_lt by exact Hn. reflexivity.
Qed.

(** C2 (as the code has it). For a stream of length k * recordSize + r with
    0 < r < recordSize, [Read] signals the truncated-record error
    io.ErrUnexpectedEOF and returns no record: whatever had been appended
    when the short read is met is dropped, although the first
    k * recordSize bytes alone decode into k records. [WtmpMetrics] then
    logs the error and emits nothing. *)
Theorem Read_truncated_returns_nothing (file : list byte) (k r : nat) :
  length file = (k * recordSize + r)%nat -> (0 < r < recordSize)%nat ->
  Read file = ([], Some ErrUnexpectedEOF) /\
  (forall (us : list Utmp) (fuel : nat),
      (k < fuel)%nat -> Read_loop fuel file us = ([], Some ErrUnexpectedEOF)) /\
  Read (take (k * recordSize) file) = (records k file, None) /\
  (forall clock : nat -> Time,
      run (WtmpMetrics (inr file) clock) =
      (Done [], [LogError "read wtmp file failed:" ErrUnexpectedEOF])).
Proof.
  intros Hlen Hr.
  pose proof (Read_truncated file k r Hlen Hr) as HR.
  split; [exact HR|]. split; [|split].
  - intros us fuel Hfuel. now apply (Read_loop_truncated k _ _ _ r).
  - assert (Hl : length (take (k * recordSize) file) = (k * recordSize)%nat)
      by (rewrite length_take; lia).
    rewrite (Read_whole _ k Hl).
    f_equal. unfold records. apply map_ext_in. intros n Hn.
    apply in_seq in Hn. unfold record_at, slice. f_equal.
    rewrite skipn_firstn_comm, take_take. f_equal.
    unfold recordSize in *. lia.
  - intros clock. unfold WtmpMetrics. rewrite HR. reflexivity.
Qed.

End Reader.

Lemma Read_whole_records_witness :
  length two_logins = (2 * recordSize)%nat /\
  Read two_logins = (records 2 two_logins, None) /\
  length (fst (Read two_logins)) = (length two_logins / recordSize)%nat.
Proof.
  assert (Hlen : length two_logins = (2 * recordSize)%nat) by reflexivity.
  split; [exact Hlen|].
  destruct (Read_whole_records two_logins 2 Hlen) as (HR & HL & _).
  split; [exact HR|exact HL].
Defined.

Lemma Read_truncated_returns_nothing_witness :
  length truncated_logins = (2 * recordSize + 3)%nat /\
  (0 < 3 < recordSize)%nat /\
  Read truncated_logins = ([], Some ErrUnexpectedEOF).
Proof.
  assert (Hlen : length truncated_logins = (2 * recordSize + 3)%nat) by reflexivity.
  assert (Hr : (0 < 3 < recordSize)%nat) by (unfold recordSize; lia).
  split; [exact Hlen|]. split; [exact Hr|].
  exact (proj1 (Read_truncated_returns_nothing truncated_logins 2 3 Hlen Hr)).
Defined.

(** C2, refuted as stated: after two whole records and three more bytes
    [Read] signals the truncated record and hands back none of the two. *)
Lemma Read_truncated_keeps_records_counterexample :
  ~ (forall (file : list byte) (k r : nat),
        length file = (k * recordSize + r)%nat -> (0 < r < recordSize)%nat ->
        exists us : list Utmp,
          Read file = (us, Some ErrUnexpectedEOF) /\ length us = k).
Proof.
  intros H.
  destruct (H truncated_logins 2%nat 3%nat) as (us & HR & Hk);
    [reflexivity | unfold recordSize; lia |].
  assert (E : Read truncated_logins = ([], Some ErrUnexpectedEOF))
    by (vm_compute; reflexivity).
  rewrite E in HR. injection HR as <-. discriminate Hk.
Qed.

(** ** Process states: [PsMetrics] *)

Section ProcessStates.

Lemma int64_idemp (x : Z) : int64 (int64 x) = int64 x.
Proof.
  unfold int64, wrap_signed.
  change (2 ^ 64) with 18446744073709551616.
  change (2 ^ (64 - 1)) with 9223372036854775808.
  destruct (Z.ltb_spec (x mod 18446744073709551616) 9223372036854775808);
    match goal with |- context [if ?b then _ else _] => destruct b eqn:E end;
    try apply Z.ltb_lt in E; try apply Z.ltb_ge in E;
    Z.div_mod_to_equations; lia.
Qed.

Lemma int64_add_l (a b : Z) : int64 (int64 a + b) = int64 (a + b).
Proof.
  unfold int64, wrap_signed.
  change (2 ^ 64) with 18446744073709551616.
  change (2 ^ (64 - 1)) with 9223372036854775808.
  assert (E : (if a mod 18446744073709551616 <? 9223372036854775808
               then a mod 18446744073709551616
               else a mod 18446744073709551616 - 18446744073709551616) =
              a mod 18446744073709551616
              - (if a mod 18446744073709551616 <? 9223372036854775808 then 0 else 1)
                * 18446744073709551616)
    by (destruct (a mod 18446744073709551616 <? 9223372036854775808); lia).
  rewrite E.
  assert (M : (a mod 18446744073709551616
               - (if a mod 18446744073709551616 <? 9223372036854775808 then 0 else 1)
                 * 18446744073709551616 + b) mod 18446744073709551616 =
              (a + b) mod 18446744073709551616).
  { replace (a mod 18446744073709551616
             - (if a mod 18446744073709551616 <? 9223372036854775808 then 0 else 1)
               * 18446744073709551616 + b)
      with (a mod 18446744073709551616 + b
            + - (if a mod 18446744073709551616 <? 9223372036854775808 then 0 else 1)
              * 18446744073709551616) by lia.
    rewrite Z.mod_add by lia. apply Z.add_mod_idemp_l. lia. }
  now rewrite M.
Qed.

Lemma int64_small (x : Z) : 0 <= x < 2 ^ 63 -> int64 x = x.
Proof.
  intros Hx. unfold int64, wrap_signed.
  rewrite Z.mod_small by lia.
  destruct (Z.ltb_spec x (2 ^ (64 - 1))); lia.
Qed.

Lemma get_empty (k : string) : get ∅ k = 0.
Proof. unfold get. now rewrite lookup_empty. Qed.

Lemma get_bump (k k' : string) (fields : gmap string Z) :
  get (bump k fields) k' =
  if decide (k = k') then int64 (get fields k + 1) else get fields k'.
Proof.
  unfold bump, get at 1. rewrite lookup_insert. now case_decide.
Qed.

(** The code of an unknown state is logged as one byte when it is ASCII and
    as its two bytes of UTF-8 otherwise, never as a byte from 0x80 on alone. *)
Lemma string_of_code_utf8 (c : byte) :
  (byte_val c < 128 -> string_of_code c = string_of_list_byte [c]) /\
  (128 <= byte_val c ->
   exists hi lo : byte,
     string_of_code c = string_of_list_byte [hi; lo] /\
     194 <= byte_val hi <= 195 /\ 128 <= byte_val lo <= 191 /\
     byte_val c = 64 * (byte_val hi - 192) + (byte_val lo - 128)).
Proof.
  destruct c; (split; [intros H; first [reflexivity | vm_compute in H; discriminate H]|]);
    intros H; first [exfalso; vm_compute in H; apply H; reflexivity
                    | eexists _, _; split; [reflexivity|vm_compute; intuition discriminate] ].
Qed.

Lemma counter_of_not_total (c : byte) : counter_of c <> Some "total"%string.
Proof.
  unfold counter_of.
  destruct (ascii_of_byte c) as [[] [] [] [] [] [] [] []]; discriminate.
Qed.

Lemma tally_cons (k : string) (c : byte) (cs : list byte) :
  tally k (c :: cs) =
  (if decide (counter_of c = Some k) then 1 else 0) + tally k cs.
Proof.
  unfold tally. rewrite filter_cons.
  destruct (decide (counter_of c = Some k)); cbn [length]; lia.
Qed.

Lemma unrecognized_cons (c : byte) (cs : list byte) :
  unrecognized (c :: cs) =
  match counter_of c with
  | Some _ => unrecognized cs
  | None => c :: unrecognized cs
  end.
Proof.
  unfold unrecognized. rewrite filter_cons.
  destruct (counter_of c); now case_decide.
Qed.

(** One turn on a token that is not the header. *)
Lemma PsMetrics_step_code (i : nat) (c : byte) (t : list byte)
    (fields : gmap string Z) (lg : list LogLine) :
  ((i =? 0)%nat && String.eqb (string_of_list_byte (c :: t)) "STAT") = false ->
  PsMetrics_step i (c :: t) fields lg =
  (Done (bump "total" (match counter_of c with
                       | Some k => bump k fields
                       | None => fields
                       end)),
   match counter_of c with
   | Some _ => lg
   | None => lg ++ [LogErrorf (unknown_state_line c)]
   end).
Proof.
  intros Hh. unfold PsMetrics_step. rewrite Hh. unfold counter_of.
  destruct (ascii_of_byte c) as [[] [] [] [] [] [] [] []]; reflexivity.
Qed.

(** The loop from a turn where the header cannot be met any more. *)
Lemma PsMetrics_loop_codes (tokens : list (list byte)) :
  forall (i : nat) (fields : gmap string Z) (lg : list LogLine),
    i <> 0%nat \/ process_tokens tokens = tokens ->
    Forall (fun t => t <> []) tokens ->
    (forall k, int64 (get fields k) = get fields k) ->
    exists fields' : gmap string Z,
      PsMetrics_loop i tokens fields lg =
      (Done fields', lg ++ unknown_state_log (codes tokens)) /\
      (forall k, int64 (get fields' k) = get fields' k) /\
      get fields' "total" =
      int64 (get fields "total" + Z.of_nat (length (codes tokens))) /\
      (forall k, k <> "total"%string ->
                 get fields' k = int64 (get fields k + tally k (codes tokens))).
Proof.
  induction tokens as [|status rest IH]; intros i fields lg Hi Hne Hrange.
  - exists fields. cbn. rewrite app_nil_r.
    split; [reflexivity|]. split; [exact Hrange|].
    split; [|intros k _]; rewrite Z.add_0_r; symmetry; apply Hrange.
  - apply Forall_cons in Hne as [Hs Hrest].
    destruct status as [|c t]; [congruence|].
    cbn [PsMetrics_loop]. unfold mbind, Exec_bind, bind.
    rewrite PsMetrics_step_code.
    2:{ destruct Hi as [Hi|Hi]; [destruct i; [congruence|reflexivity]|].
        apply andb_false_intro2. unfold process_tokens in Hi.
        destruct (String.eqb _ _); [|reflexivity].
        apply (f_equal length) in Hi. cbn [length] in Hi. lia. }
    cbv beta iota.
    match goal with
    | |- context [PsMetrics_loop _ _ ?f ?l] => set (f1 := f); set (lg1 := l)
    end.
    destruct (IH (S i) f1 lg1) as (fields' & Hrun & Hr' & Htot & Hk);
      [left; lia | exact Hrest | |].
    { intros k. subst f1. rewrite get_bump. case_decide; [apply int64_idemp|].
      destruct (counter_of c) as [k0|]; [|apply Hrange].
      rewrite get_bump. case_decide; [apply int64_idemp|apply Hrange]. }
    exists fields'. split; [|split; [exact Hr'|split]].
    + rewrite Hrun. f_equal. subst lg1.
      change (codes ((c :: t) :: rest)) with (c :: codes rest).
      unfold unknown_state_log. rewrite unrecognized_cons.
      destruct (counter_of c); [reflexivity|].
      cbn [map]. now rewrite <- app_assoc.
    + rewrite Htot. subst f1. rewrite get_bump.
      rewrite decide_True by reflexivity.
      change (codes ((c :: t) :: rest)) with (c :: codes rest). cbn [length].
      assert (E : get (match counter_of c with
                       | Some k => bump k fields
                       | None => fields
                       end) "total" = get fields "total").
      { pose proof (counter_of_not_total c) as Hnt.
        destruct (counter_of c) as [k0|]; [|reflexivity].
        rewrite get_bump. case_decide; congruence. }
      rewrite E, int64_add_l. f_equal. lia.
    + intros k Hkt. rewrite (Hk k Hkt). subst f1. rewrite get_bump.
      rewrite decide_False by congruence.
      change (codes ((c :: t) :: rest)) with (c :: codes rest).
      rewrite tally_cons.
      destruct (counter_of c) as [k0|].
      * rewrite get_bump.
        destruct (decide (k0 = k)) as [->|Hne0].
        -- rewrite decide_True by reflexivity. rewrite int64_add_l. f_equal. lia.
        -- now rewrite decide_False by congruence.
      * now rewrite decide_False by discriminate.
Qed.

Lemma Fields_from_nonempty (s : list byte) :
  forall cur : list byte, Forall (fun t => t <> []) (Fields_from cur s).
Proof.
  induction s as [|c s IH]; intros cur; cbn [Fields_from].
  - destruct cur; [constructor|]. constructor; [discriminate|constructor].
  - destruct (asciiSpace c).
    + destruct cur; [apply IH|]. constructor; [discriminate|apply IH].
    + apply IH.
Qed.

Lemma asciiFields_nonempty (out : list byte) :
  Forall (fun t => t <> []) (asciiFields out).
Proof. apply Fields_from_nonempty. Qed.

Lemma tally_le_length (k : string) (cs : list byte) :
  0 <= tally k cs <= Z.of_nat (length cs).
Proof. unfold tally. pose proof (length_filter (fun c => counter_of c = Some k) cs). lia. Qed.

(** The whole loop, from the first token and with no counter set. *)
Lemma PsMetrics_loop_start (tokens : list (list byte)) :
  Forall (fun t => t <> []) tokens ->
  exists fields : gmap string Z,
    PsMetrics_loop 0 tokens ∅ [] =
    (Done fields, unknown_state_log (codes (process_tokens tokens))) /\
    (forall k, k <> "total"%string ->
               get fields k = int64 (tally k (codes (process_tokens tokens)))) /\
    get fields "total" = int64 (Z.of_nat (length (codes (process_tokens tokens)))).
Proof.
  intros Hne. destruct tokens as [|t rest].
  - exists ∅. split; [reflexivity|].
    split; [intros k _; now rewrite get_empty|reflexivity].
  - unfold process_tokens.
    destruct (String.eqb (string_of_list_byte t) "STAT") eqn:Eh.
    + apply Forall_cons in Hne as [_ Hrest].
      destruct (PsMetrics_loop_codes rest 1 ∅ []) as (f & Hrun & _ & Htot & Hk);
        [left; lia | exact Hrest | intros k; now rewrite get_empty |].
      exists f. split; [|split].
      * cbn [PsMetrics_loop]. unfold mbind, Exec_bind, bind, PsMetrics_step.
        rewrite Eh. exact Hrun.
      * intros k Hkt. rewrite (Hk k Hkt), get_empty. reflexivity.
      * rewrite Htot, get_empty. reflexivity.
    + destruct (PsMetrics_loop_codes (t :: rest) 0 ∅ []) as (f & Hrun & _ & Htot & Hk);
        [right; unfold process_tokens; now rewrite Eh | exact Hne
        | intros k; now rewrite get_empty |].
      exists f. split; [exact Hrun|split].
      * intros k Hkt. rewrite (Hk k Hkt), get_empty. reflexivity.
      * rewrite Htot, get_empty. reflexivity.
Qed.

Variable toMetric : string -> MetricValue -> gmap string string -> option Metric.
Variable Fields : list byte -> list (list byte).

(** bytes.Fields returns no empty token. *)
Hypothesis Fields_nonempty : forall out, Forall (fun t => t <> []) (Fields out).

(** C5 (as the code has it). Let the process tokens be the tokens of the
    ps output but for a first token STAT. [PsMetrics] does not fail. A
    token whose first byte is one of W, U, D, L, Z, T, R, S, I, X, ? adds
    one to its named counter, and a token with any other first byte adds
    to no named counter and is logged as an unknown state; every process
    token, of a recognised state or not, adds one to total. The counters
    are [int64]. *)
Theorem PsMetrics_tallies (out : list byte) :
  let cs := codes (process_tokens (Fields out)) in
  exists fields : gmap string Z,
    run (PsMetrics_loop 0 (Fields out) ∅) = (Done fields, unknown_state_log cs) /\
    (forall k, k <> "total"%string -> get fields k = int64 (tally k cs)) /\
    get fields "total" = int64 (Z.of_nat (length cs)) /\
    (Z.of_nat (length cs) < 2 ^ 63 ->
     get fields "total" = Z.of_nat (length cs) /\
     forall k, k <> "total"%string -> get fields k = tally k cs) /\
    length cs =
    (length (filter (fun c => is_Some (counter_of c)) cs) + length (unrecognized cs))%nat /\
    run (PsMetrics toMetric Fields (inr out)) =
    (Done [toMetric "ps.zombies.num" (VInt64 (get fields "zombies")) ∅;
           toMetric "ps.running.num" (VInt64 (get fields "running")) ∅;
           toMetric "ps.total.num" (VInt64 (get fields "total")) ∅],
     unknown_state_log cs).
Proof.
  intros cs.
  destruct (PsMetrics_loop_start (Fields out) (Fields_nonempty out))
    as (fields & Hrun & Hk & Htot).
  fold cs in Hrun, Hk, Htot.
  exists fields. split; [exact Hrun|]. split; [exact Hk|]. split; [exact Htot|].
  split; [|split].
  - intros Hsmall. split.
    + rewrite Htot. apply int64_small. lia.
    + intros k Hkt. rewrite (Hk k Hkt). apply int64_small.
      pose proof (tally_le_length k cs). lia.
  - unfold unrecognized. clear. induction cs as [|c cs IH]; [reflexivity|].
    rewrite !filter_cons. destruct (counter_of c) as [k0|] eqn:E.
    + rewrite decide_True by (now exists k0). rewrite decide_False by discriminate.
      cbn [length]. lia.
    + rewrite decide_False by (intros [? ?]; discriminate).
      rewrite decide_True by reflexivity. cbn [length]. lia.
  - unfold run in *. unfold PsMetrics, mbind, Exec_bind, bind.
    rewrite Hrun. reflexivity.
Qed.

End ProcessStates.

Lemma PsMetrics_tallies_witness :
  (forall out, Forall (fun t => t <> []) (asciiFields out)) /\
  exists fields : gmap string Z,
    run (PsMetrics_loop 0 (asciiFields ps_output) ∅) =
    (Done fields, [LogErrorf "processes: Unknown state [ Q ] from ps"]) /\
    get fields "total" = 5 /\ get fields "sleeping" = 2.
Proof.
  split; [exact asciiFields_nonempty|].
  destruct (PsMetrics_tallies (toMetric_at 0) asciiFields asciiFields_nonempty ps_output)
    as (fields & Hrun & Hk & Htot & _).
  exists fields. split; [exact Hrun|]. split.
  - exact Htot.
  - apply (Hk "sleeping"%string). discriminate.
Defined.

(** C5, refuted as stated: a token with an unrecognised state is counted in
    total. *)
Lemma PsMetrics_unknown_in_total_counterexample :
  ~ (forall (tokens : list (list byte)) (fields : gmap string Z) (lg : list LogLine),
        Forall (fun t => t <> []) tokens ->
        run (PsMetrics_loop 0 tokens ∅) = (Done fields, lg) ->
        get fields "total" =
        Z.of_nat (length (filter (fun c => is_Some (counter_of c))
                                 (codes (process_tokens tokens))))).
Proof.
  intros H.
  specialize (H [["Q"%byte]] (bump "total" ∅)
                [LogErrorf (unknown_state_line "Q"%byte)]).
  assert (Hne : Forall (fun t : list byte => t <> []) [["Q"%byte]])
    by (constructor; [discriminate|constructor]).
  specialize (H Hne eq_refl). vm_compute in H. discriminate H.
Qed.


(** ** Login records: [WtmpMetrics] *)

Section Logins.

Lemma int32_range (x : Z) : is_int32 (int32 x).
Proof.
  unfold is_int32, int32, wrap_signed.
  change (2 ^ 32) with 4294967296. change (2 ^ (32 - 1)) with 2147483648.
  change (2 ^ 31) with 2147483648.
  pose proof (Z.mod_pos_bound x 4294967296 ltac:(lia)).
  destruct (Z.ltb_spec (x mod 4294967296) 2147483648); lia.
Qed.

Lemma decoded_Sec_range (b : list byte) : is_int32 (Sec (u_Time (decodeUtmp b))).
Proof. apply int32_range. Qed.

Lemma int64_of_int32 (x : Z) : is_int32 x -> int64 x = x.
Proof.
  unfold is_int32, int64, wrap_signed.
  change (2 ^ 31) with 2147483648.
  change (2 ^ 64) with 18446744073709551616.
  change (2 ^ (64 - 1)) with 9223372036854775808.
  intros Hx.
  destruct (Z.ltb_spec (x mod 18446744073709551616) 9223372036854775808);
    Z.div_mod_to_equations; lia.
Qed.

(** One turn of the loop: a record inside the window makes the first
    assignment through the nil pointer panic, any other record is passed
    over. *)
Lemma WtmpMetrics_step_cases (gu : Utmp) (now : Time) (L : list (option Metric))
    (lg : list LogLine) :
  is_int32 (Sec (u_Time gu)) ->
  WtmpMetrics_step gu now L lg =
  if now - 5 * Minute <? Sec (u_Time gu) * Second
  then (Panicked NilDereference, lg)
  else (Done L, lg).
Proof.
  intros Hwf. unfold WtmpMetrics_step, Time_After, Time_Add.
  cbn [NewGoUtmp g_Time]. unfold Unix.
  rewrite (int64_of_int32 _ Hwf).
  replace (now + Minute * -5) with (now - 5 * Minute) by lia.
  rewrite Z.add_0_r.
  destruct (now - 5 * Minute <? Sec (u_Time gu) * Second); reflexivity.
Qed.

Lemma WtmpMetrics_loop_cases (clock : nat -> Time) (utmps : list Utmp) :
  forall (i : nat) (L : list (option Metric)) (lg : list LogLine),
    Forall (fun u => is_int32 (Sec (u_Time u))) utmps ->
    (WtmpMetrics_loop clock i utmps L lg = (Panicked NilDereference, lg) /\
     exists (j : nat) (u : Utmp), utmps !! j = Some u /\ recent (clock (i + j)%nat) u) \/
    (WtmpMetrics_loop clock i utmps L lg = (Done L, lg) /\
     forall (j : nat) (u : Utmp), utmps !! j = Some u -> ~ recent (clock (i + j)%nat) u).
Proof.
  induction utmps as [|gu rest IH]; intros i L lg Hwf.
  - right. split; [reflexivity|]. intros j u Hj. now rewrite lookup_nil in Hj.
  - apply Forall_cons in Hwf as [Hgu Hrest].
    cbn [WtmpMetrics_loop]. unfold mbind, Exec_bind, bind.
    rewrite (WtmpMetrics_step_cases _ _ _ _ Hgu).
    destruct (Z.ltb_spec (clock i - 5 * Minute) (Sec (u_Time gu) * Second)) as [Hin|Hout].
    + left. split; [reflexivity|]. exists 0%nat, gu.
      split; [reflexivity|]. rewrite Nat.add_0_r. exact Hin.
    + destruct (IH (S i) L lg Hrest) as [[Hrun (j & u & Hj & Hr)]|[Hrun Hnone]].
      * left. split; [exact Hrun|]. exists (S j), u. split; [exact Hj|].
        now rewrite Nat.add_succ_r.
      * right. split; [exact Hrun|]. intros [|j] u Hj.
        -- injection Hj as <-. rewrite Nat.add_0_r. unfold recent. lia.
        -- rewrite Nat.add_succ_r. now apply (Hnone j u).
Qed.

Lemma records_wf (k : nat) (file : list byte) :
  Forall (fun u => is_int32 (Sec (u_Time u))) (records k file).
Proof.
  unfold records. apply Forall_fmap, Forall_forall. intros n _.
  apply decoded_Sec_range.
Qed.

Lemma records_lookup (k : nat) (file : list byte) (j : nat) (u : Utmp) :
  records k file !! j = Some u <-> (j < k)%nat /\ u = record_at file j.
Proof.
  unfold records. rewrite list_lookup_fmap.
  destruct (decide (j < k)%nat) as [Hlt|Hge].
  - rewrite lookup_seq_lt by exact Hlt. cbn. split.
    + intros [= <-]. auto.
    + intros [_ ->]. reflexivity.
  - rewrite lookup_seq_ge by lia. cbn. split; [discriminate|lia].
Qed.

(** The pass over a stream of whole records. *)
Lemma WtmpMetrics_whole_cases (file : list byte) (k : nat) (clock : nat -> Time) :
  length file = (k * recordSize)%nat ->
  (run (WtmpMetrics (inr file) clock) = (Panicked NilDereference, []) /\
   exists n : nat, (n < k)%nat /\ recent (clock n) (record_at file n)) \/
  (run (WtmpMetrics (inr file) clock) = (Done [], []) /\
   forall n : nat, (n < k)%nat -> ~ recent (clock n) (record_at file n)).
Proof.
  intros Hlen. unfold run, WtmpMetrics.
  rewrite (Read_whole file k Hlen).
  destruct (WtmpMetrics_loop_cases clock (records k file) 0 [] [] (records_wf k file))
    as [[Hrun (j & u & Hj & Hr)]|[Hrun Hnone]].
  - left. split; [exact Hrun|]. apply records_lookup in Hj as [Hlt ->].
    exists j. split; [exact Hlt|exact Hr].
  - right. split; [exact Hrun|]. intros n Hn.
    apply (Hnone n). apply records_lookup. auto.
Qed.

(** C1 (what the code does). For the stream that holds one login record
    of 1700000000 s and a clock at 4 minutes later, the record is inside
    the 5-minute window and [WtmpMetrics] panics on the assignment of the
    sample's name, where it should return the one sample kernel.user.login.
    In general no run of [WtmpMetrics] returns a sample: it returns the
    empty list or it panics. *)
Theorem WtmpMetrics_emits_no_sample :
  (let file := login_record "root" "10.0.0.7" 1700000000 in
   let now := Unix 1700000000 0 + 4 * Minute in
   Read file = ([record_at file 0], None) /\
   recent now (record_at file 0) /\
   login_sample (record_at file 0) =
   {| Name := "kernel.user.login"; Value := VInt 1; Timestamp := 1700000000;
      Tags := <["host" := "10.0.0.7"%string]> (<["user" := "root"%string]> ∅) |} /\
   run (WtmpMetrics (inr file) (fun _ => now)) = (Panicked NilDereference, [])) /\
  (forall (wtmp : error + list byte) (clock : nat -> Time),
      fst (run (WtmpMetrics wtmp clock)) = Done [] \/
      fst (run (WtmpMetrics wtmp clock)) = Panicked NilDereference).
Proof.
  split.
  - cbv zeta. split; [vm_compute; reflexivity|].
    split; [vm_compute; reflexivity|].
    split; [vm_compute; reflexivity|vm_compute; reflexivity].
  - intros [err|file] clock; [left; reflexivity|].
    pose proof (Nat.div_mod_eq (length file) recordSize) as Hdm.
    pose proof (Nat.mod_upper_bound (length file) recordSize ltac:(discriminate)) as Hub.
    destruct (Nat.eq_dec (length file mod recordSize)%nat 0%nat) as [E|E].
    + destruct (WtmpMetrics_whole_cases file (length file / recordSize) clock)
        as [[-> _]|[-> _]]; [lia|right|left]; reflexivity.
    + left. unfold run, WtmpMetrics.
      rewrite (Read_truncated file (length file / recordSize)
                 (length file mod recordSize)) by lia.
      reflexivity.
Qed.

(** C4 (what the code does). On a stream of whole records [WtmpMetrics]
    aborts with a nil-pointer dereference exactly when some record is
    inside the recency window at the time its turn reads the clock; it
    returns normally, with no sample, exactly when no record is. *)
Theorem WtmpMetrics_panics_within_window (file : list byte) (k : nat)
    (clock : nat -> Time) :
  length file = (k * recordSize)%nat ->
  (run (WtmpMetrics (inr file) clock) = (Panicked NilDereference, []) <->
   exists n : nat, (n < k)%nat /\ recent (clock n) (record_at file n)) /\
  (run (WtmpMetrics (inr file) clock) = (Done [], []) <->
   forall n : nat, (n < k)%nat -> ~ recent (clock n) (record_at file n)).
Proof.
  intros Hlen.
  destruct (WtmpMetrics_whole_cases file k clock Hlen) as [[Hrun Hex]|[Hrun Hall]];
    rewrite Hrun; split; split; try discriminate; try (intros; reflexivity).
  - intros _. exact Hex.
  - intros Hall. destruct Hex as (n & Hn & Hr). exfalso. exact (Hall n Hn Hr).
  - intros (n & Hn & Hr). exfalso. exact (Hall n Hn Hr).
  - intros _. exact Hall.
Qed.

End Logins.

Lemma WtmpMetrics_panics_within_window_witness :
  length (login_record "root" "10.0.0.7" 1700000000) = (1 * recordSize)%nat /\
  run (WtmpMetrics (inr (login_record "root" "10.0.0.7" 1700000000))
         (fun _ => Unix 1700000000 0 + 4 * Minute)) =
  (Panicked NilDereference, []).
Proof.
  assert (Hlen : length (login_record "root" "10.0.0.7" 1700000000) = (1 * recordSize)%nat)
    by reflexivity.
  split; [exact Hlen|].
  apply (proj2 (proj1 (WtmpMetrics_panics_within_window _ 1
                         (fun _ => Unix 1700000000 0 + 4 * Minute) Hlen))).
  exists 0%nat. split; [lia|]. vm_compute. reflexivity.
Defined.

(** ** What does not abort *)

Section FailSoft.

Variable toMetric : string -> MetricValue -> gmap string string -> option Metric.

Lemma FsKernelMetrics_never_panics (KernelMaxFiles KernelAllocateFiles : error + Z) :
  exists (L : list (option Metric)) (lg : list LogLine),
    run (FsKernelMetrics toMetric KernelMaxFiles KernelAllocateFiles) = (Done L, lg).
Proof.
  destruct KernelMaxFiles as [e|m]; [now eexists _, _|].
  destruct KernelAllocateFiles as [e|a]; now eexists _, _.
Qed.

Lemma PsMetrics_never_panics (Fields : list byte -> list (list byte))
    (execPS : error + list byte) :
  (forall out, Forall (fun t => t <> []) (Fields out)) ->
  exists (L : list (option Metric)) (lg : list LogLine),
    run (PsMetrics toMetric Fields execPS) = (Done L, lg).
Proof.
  intros Hne. destruct execPS as [e|out]; [now eexists _, _|].
  destruct (PsMetrics_loop_start (Fields out) (Hne out)) as (f & Hrun & _).
  unfold run, PsMetrics, mbind, Exec_bind, bind. rewrite Hrun.
  now eexists _, _.
Qed.

Lemma WtmpMetrics_open_failure (err : error) (clock : nat -> Time) :
  run (WtmpMetrics (inl err) clock) =
  (Done [], [LogError "open wtmp file failed:" err]).
Proof. reflexivity. Qed.

End FailSoft.

(** * Further properties of the code *)

(** ** Strings of digits and their separators *)

Section Digits.

Lemma append_String (c : ascii) (s t : string) :
  String c s +:+ t = String c (s +:+ t).
Proof. reflexivity. Qed.

Lemma append_assoc (s t u : string) : (s +:+ t) +:+ u = s +:+ (t +:+ u).
Proof.
  induction s as [|c s IH]; [reflexivity|].
  rewrite !append_String. now rewrite IH.
Qed.

Lemma append_nil_r (s : string) : s +:+ EmptyString = s.
Proof.
  induction s as [|c s IH]; [reflexivity|].
  rewrite append_String. now rewrite IH.
Qed.

Lemma lacks_String (c x : ascii) (s : string) :
  lacks c (String x s) <-> x <> c /\ lacks c s.
Proof.
  unfold lacks. cbn [list_ascii_of_string]. split.
  - intros H. inversion H; subst. auto.
  - intros [Hx Hs]. now constructor.
Qed.

Lemma lacks_nil (c : ascii) : lacks c EmptyString.
Proof. constructor. Qed.

Lemma lacks_append (c : ascii) (s t : string) :
  lacks c (s +:+ t) <-> lacks c s /\ lacks c t.
Proof.
  induction s as [|x s IH].
  - change (EmptyString +:+ t) with t. split; [intros H; split; [apply lacks_nil|exact H]|tauto].
  - rewrite append_String, !lacks_String, IH. tauto.
Qed.

(** A string without the separator is one piece. *)
Lemma Split_from_lacks (s cur : string) (sep : ascii) :
  lacks sep s -> Split_from cur s sep = [cur +:+ s].
Proof.
  revert cur. induction s as [|x s IH]; intros cur Hl; cbn [Split_from].
  - now rewrite append_nil_r.
  - apply lacks_String in Hl as [Hx Hs].
    destruct (Ascii.eqb_spec x sep) as [E|_]; [contradiction|].
    rewrite (IH _ Hs), append_assoc. reflexivity.
Qed.

(** The first piece ends at the first separator. *)
Lemma Split_from_first (s rest cur : string) (sep : ascii) :
  lacks sep s ->
  Split_from cur (s +:+ String sep rest) sep =
  (cur +:+ s) :: Split_from EmptyString rest sep.
Proof.
  revert cur. induction s as [|x s IH]; intros cur Hl.
  - change (EmptyString +:+ String sep rest) with (String sep rest).
    cbn [Split_from]. rewrite Ascii.eqb_refl. now rewrite append_nil_r.
  - apply lacks_String in Hl as [Hx Hs].
    rewrite append_String. cbn [Split_from].
    destruct (Ascii.eqb_spec x sep) as [E|_]; [contradiction|].
    rewrite (IH _ Hs), append_assoc. reflexivity.
Qed.

(** Two strings that agree up to and after their first separator. *)
Lemma first_separator_unique (sep : ascii) (s1 s2 r1 r2 : string) :
  lacks sep s1 -> lacks sep s2 ->
  s1 +:+ String sep r1 = s2 +:+ String sep r2 ->
  s1 = s2 /\ r1 = r2.
Proof.
  revert s2. induction s1 as [|x s1 IH]; intros s2 H1 H2 E.
  - destruct s2 as [|y s2].
    + change (String sep r1 = String sep r2) in E. now injection E.
    + rewrite append_String in E. change (String sep r1 = String y (s2 +:+ String sep r2)) in E.
      injection E as Ey _. apply lacks_String in H2 as [Hy _]. congruence.
  - apply lacks_String in H1 as [Hx H1].
    destruct s2 as [|y s2].
    + rewrite append_String in E.
      change (String x (s1 +:+ String sep r1) = String sep r2) in E.
      injection E as Ex _. congruence.
    + apply lacks_String in H2 as [Hy H2].
      rewrite !append_String in E. injection E as -> E.
      destruct (IH s2 H1 H2 E) as [-> ->]. auto.
Qed.

Lemma digits_d_digits (n : N) :
  Forall (fun c => is_digit c = true) (list_ascii_of_string (digits_d n)).
Proof.
  unfold digits_d. generalize (N.to_uint n). intros u.
  induction u; cbn [DecimalString.NilEmpty.string_of_uint list_ascii_of_string];
    constructor; auto.
Qed.

Lemma digits_d_lacks (n : N) (c : ascii) : is_digit c = false -> lacks c (digits_d n).
Proof.
  intros Hc. unfold lacks. eapply Forall_impl; [apply digits_d_digits|].
  intros x Hx ->. congruence.
Qed.

Lemma digits_x_lacks (n : N) (c : ascii) :
  is_digit c = false ->
  c <> "a"%char -> c <> "b"%char -> c <> "c"%char ->
  c <> "d"%char -> c <> "e"%char -> c <> "f"%char ->
  lacks c (digits_x n).
Proof.
  intros Hc Ha Hb Hcc Hd He Hf. unfold digits_x, lacks.
  generalize (N.to_hex_uint n). intros u.
  induction u; cbn [HexadecimalString.NilEmpty.string_of_uint list_ascii_of_string];
    constructor; auto; intros <-; discriminate Hc.
Qed.

Lemma digits_d_inj (n m : N) : digits_d n = digits_d m -> n = m.
Proof.
  unfold digits_d. intros E.
  apply (f_equal DecimalString.NilEmpty.uint_of_string) in E.
  rewrite !DecimalString.NilEmpty.usu in E. injection E as E.
  apply (f_equal N.of_uint) in E. now rewrite !DecimalN.Unsigned.of_to in E.
Qed.

Lemma digits_x_inj (n m : N) : digits_x n = digits_x m -> n = m.
Proof.
  unfold digits_x. intros E.
  apply (f_equal HexadecimalString.NilEmpty.uint_of_string) in E.
  rewrite !HexadecimalString.NilEmpty.usu in E. injection E as E.
  apply (f_equal N.of_hex_uint) in E. now rewrite !HexadecimalN.Unsigned.of_to in E.
Qed.

Lemma fmt_d_nonneg (x : Z) : 0 <= x -> fmt_d x = digits_d (Z.to_N x).
Proof. intros Hx. unfold fmt_d. destruct (Z.ltb_spec x 0); [lia|reflexivity]. Qed.

Lemma fmt_x_nonneg (x : Z) : 0 <= x -> fmt_x x = digits_x (Z.to_N x).
Proof. intros Hx. unfold fmt_x. destruct (Z.ltb_spec x 0); [lia|reflexivity]. Qed.

Lemma fmt_d_inj (x y : Z) : 0 <= x -> 0 <= y -> fmt_d x = fmt_d y -> x = y.
Proof.
  intros Hx Hy. rewrite !fmt_d_nonneg by assumption.
  intros E. apply digits_d_inj in E. lia.
Qed.

Lemma fmt_x_inj (x y : Z) : 0 <= x -> 0 <= y -> fmt_x x = fmt_x y -> x = y.
Proof.
  intros Hx Hy. rewrite !fmt_x_nonneg by assumption.
  intros E. apply digits_x_inj in E. lia.
Qed.

Lemma byte_of_value (z : Z) : 0 <= z <= 255 -> exists b : byte, z = byte_val b.
Proof.
  intros Hz. destruct (Byte.of_N (Z.to_N z)) as [b|] eqn:E.
  - exists b. unfold byte_val. apply Byte.to_of_N in E. lia.
  - apply Byte.of_N_None_iff in E. lia.
Qed.

(** Decimal text of a byte is parsed back to the byte. *)
Lemma ParseInt_fmt_d_byte (b : byte) : ParseInt (fmt_d (byte_val b)) = inr (byte_val b).
Proof. destruct b; vm_compute; reflexivity. Qed.

End Digits.

(** ** The text of an address *)

Section AddressText.

Lemma Split_join (sep : ascii) (parts : list string) :
  parts <> [] -> Forall (lacks sep) parts ->
  Split (join (String sep EmptyString) parts) sep = parts.
Proof.
  unfold Split. induction parts as [|p rest IH]; intros Hne Hl; [congruence|].
  apply Forall_cons in Hl as [Hp Hrest].
  destruct rest as [|q rest].
  - cbn [join]. now rewrite (Split_from_lacks _ _ _ Hp).
  - change (join (String sep EmptyString) (p :: q :: rest))
      with (p +:+ String sep (join (String sep EmptyString) (q :: rest))).
    rewrite (Split_from_first _ _ _ _ Hp). f_equal.
    apply IH; [discriminate|exact Hrest].
Qed.

Lemma lacks_join (c sep : ascii) (parts : list string) :
  c <> sep -> Forall (lacks c) parts -> lacks c (join (String sep EmptyString) parts).
Proof.
  intros Hc. induction parts as [|p rest IH]; intros Hl; [apply lacks_nil|].
  apply Forall_cons in Hl as [Hp Hrest].
  destruct rest as [|q rest]; [exact Hp|].
  change (join (String sep EmptyString) (p :: q :: rest))
    with (p +:+ String sep (join (String sep EmptyString) (q :: rest))).
  apply lacks_append. split; [exact Hp|].
  apply lacks_String. split; [congruence|]. now apply IH.
Qed.

Lemma land_FFFF (x : Z) : Z.land x 0xffff = x mod 2 ^ 16.
Proof. change 0xffff with (Z.ones 16). apply Z.land_ones. lia. Qed.

Lemma low16_mod (w : Z) : low16 w = w mod 2 ^ 16.
Proof. apply land_FFFF. Qed.

Lemma high16_div_mod (w : Z) : high16 w = (w / 2 ^ 16) mod 2 ^ 16.
Proof. unfold high16. rewrite land_FFFF, Z.shiftr_div_pow2 by lia. reflexivity. Qed.

Lemma low16_range (w : Z) : 0 <= low16 w < 65536.
Proof. rewrite low16_mod. apply Z.mod_pos_bound. lia. Qed.

Lemma high16_range (w : Z) : 0 <= high16 w < 65536.
Proof. rewrite high16_div_mod. apply Z.mod_pos_bound. lia. Qed.

(** A word is given by its four components, and by its two halves. *)
Lemma int32_of_components (w v : Z) :
  is_int32 w -> is_int32 v ->
  component w 0 = component v 0 -> component w 1 = component v 1 ->
  component w 2 = component v 2 -> component w 3 = component v 3 ->
  w = v.
Proof.
  unfold is_int32. rewrite !component_div_mod by lia.
  change (2 ^ 31) with 2147483648. change (2 ^ (8 * 0)) with 1.
  change (2 ^ (8 * 1)) with 256. change (2 ^ (8 * 2)) with 65536.
  change (2 ^ (8 * 3)) with 16777216. change (2 ^ 8) with 256.
  intros Hw Hv E0 E1 E2 E3. Z.div_mod_to_equations. lia.
Qed.

Lemma int32_of_halves (w v : Z) :
  is_int32 w -> is_int32 v -> low16 w = low16 v -> high16 w = high16 v -> w = v.
Proof.
  unfold is_int32. rewrite !low16_mod, !high16_div_mod.
  change (2 ^ 31) with 2147483648. change (2 ^ 16) with 65536.
  intros Hw Hv E0 E1. Z.div_mod_to_equations. lia.
Qed.

Lemma fmt_d_lacks (x : Z) (c : ascii) : 0 <= x -> is_digit c = false -> lacks c (fmt_d x).
Proof. intros Hx Hc. rewrite fmt_d_nonneg by exact Hx. now apply digits_d_lacks. Qed.

Lemma fmt_x_lacks_sep (x : Z) (c : ascii) :
  0 <= x -> c = "."%char \/ c = ":"%char -> lacks c (fmt_x x).
Proof.
  intros Hx Hc. rewrite fmt_x_nonneg by exact Hx.
  apply digits_x_lacks; destruct Hc as [->| ->]; (reflexivity || discriminate).
Qed.

Lemma ipv4_parts_lack (w : Z) (c : ascii) :
  is_digit c = false ->
  Forall (lacks c)
    (map fmt_d [component w 0; component w 1; component w 2; component w 3]).
Proof.
  intros Hc. repeat constructor;
    apply fmt_d_lacks; try exact Hc; apply component_range; lia.
Qed.

Lemma ipv6_parts_lack (a0 a1 a2 a3 : Z) (c : ascii) :
  c = "."%char \/ c = ":"%char ->
  Forall (lacks c)
    (map fmt_x [low16 a0; high16 a0; low16 a1; high16 a1;
                low16 a2; high16 a2; low16 a3; high16 a3]).
Proof.
  intros Hc. repeat constructor; apply fmt_x_lacks_sep; try exact Hc;
    first [apply low16_range | apply high16_range].
Qed.

Lemma addrToString_ipv4_join (w : Z) :
  addrToString (w, 0, 0, 0) =
  join "." (map fmt_d [component w 0; component w 1; component w 2; component w 3]).
Proof. reflexivity. Qed.

Lemma addrToString_ipv4_Split (w : Z) :
  Split (addrToString (w, 0, 0, 0)) "." =
  map fmt_d [component w 0; component w 1; component w 2; component w 3].
Proof.
  rewrite addrToString_ipv4_join.
  apply Split_join; [discriminate|]. now apply ipv4_parts_lack.
Qed.

Lemma addrToString_ipv6_Split (a0 a1 a2 a3 : Z) :
  ~ (a1 = 0 /\ a2 = 0 /\ a3 = 0) ->
  Split (addrToString (a0, a1, a2, a3)) ":" =
  map fmt_x [low16 a0; high16 a0; low16 a1; high16 a1;
             low16 a2; high16 a2; low16 a3; high16 a3].
Proof.
  intros Hnz. rewrite (addrToString_hextets _ _ _ _ Hnz).
  apply Split_join; [discriminate|]. apply ipv6_parts_lack. now right.
Qed.

Lemma addrToString_ipv6_lacks_dot (a0 a1 a2 a3 : Z) :
  ~ (a1 = 0 /\ a2 = 0 /\ a3 = 0) -> lacks "." (addrToString (a0, a1, a2, a3)).
Proof.
  intros Hnz. rewrite (addrToString_hextets _ _ _ _ Hnz).
  apply lacks_join; [discriminate|]. apply ipv6_parts_lack. now left.
Qed.

(** X6. The dotted form is cut by '.' into its four components, and each piece
    is parsed back by strconv.ParseInt to the byte it stands for. *)
Theorem addrToString_ipv4_text (w : Z) :
  Split (addrToString (w, 0, 0, 0)) "." =
  map fmt_d [component w 0; component w 1; component w 2; component w 3] /\
  map ParseInt (Split (addrToString (w, 0, 0, 0)) ".") =
  map inr [component w 0; component w 1; component w 2; component w 3] /\
  lacks ":" (addrToString (w, 0, 0, 0)).
Proof.
  pose proof (addrToString_ipv4_Split w) as HS.
  split; [exact HS|]. split.
  - rewrite HS. cbn [map].
    assert (HP : forall i, 0 <= i -> ParseInt (fmt_d (component w i)) = inr (component w i)).
    { intros i Hi. destruct (byte_of_value (component w i) (component_range w i Hi)) as [b ->].
      apply ParseInt_fmt_d_byte. }
    now rewrite !HP by lia.
  - rewrite addrToString_ipv4_join. apply lacks_join; [discriminate|].
    now apply ipv4_parts_lack.
Qed.

(** X7. The colon form is cut by ':' into exactly eight pieces, the hextets in
    hexadecimal, each from 0 to ffff, and holds no '.'. *)
Theorem addrToString_ipv6_text (a0 a1 a2 a3 : Z) :
  ~ (a1 = 0 /\ a2 = 0 /\ a3 = 0) ->
  Split (addrToString (a0, a1, a2, a3)) ":" =
  map fmt_x [low16 a0; high16 a0; low16 a1; high16 a1;
             low16 a2; high16 a2; low16 a3; high16 a3] /\
  Forall (fun h => 0 <= h <= 0xffff)
         [low16 a0; high16 a0; low16 a1; high16 a1;
          low16 a2; high16 a2; low16 a3; high16 a3] /\
  lacks "." (addrToString (a0, a1, a2, a3)).
Proof.
  intros Hnz. split; [now apply addrToString_ipv6_Split|].
  split; [|now apply addrToString_ipv6_lacks_dot].
  - repeat (constructor;
            [match goal with
             | |- _ <= low16 ?w <= _ => pose proof (low16_range w); lia
             | |- _ <= high16 ?w <= _ => pose proof (high16_range w); lia
             end|]).
    constructor.
Qed.

Lemma addrToString_ipv6_text_witness :
  ~ (0 = 0 /\ 0 = 0 /\ 0x00010000 = 0) /\
  Split (addrToString (0x20010db8, 0, 0, 0x00010000)) ":" =
  ["db8"; "2001"; "0"; "0"; "0"; "0"; "0"; "1"]%string.
Proof.
  assert (Hnz : ~ (0 = 0 /\ 0 = 0 /\ 0x00010000 = 0)) by lia.
  split; [exact Hnz|].
  exact (proj1 (addrToString_ipv6_text 0x20010db8 0 0 0x00010000 Hnz)).
Defined.

(** X8. Two raw address fields that are rendered alike are the same field. *)
Theorem addrToString_injective (addr addr' : Z * Z * Z * Z) :
  is_addr addr -> is_addr addr' ->
  addrToString addr = addrToString addr' -> addr = addr'.
Proof.
  destruct addr as [[[a0 a1] a2] a3], addr' as [[[b0 b1] b2] b3].
  intros (Ha0 & Ha1 & Ha2 & Ha3) (Hb0 & Hb1 & Hb2 & Hb3) E.
  destruct (decide (a1 = 0 /\ a2 = 0 /\ a3 = 0)) as [(-> & -> & ->)|Ha];
    destruct (decide (b1 = 0 /\ b2 = 0 /\ b3 = 0)) as [(-> & -> & ->)|Hb].
  - apply (f_equal (fun s => Split s ".")) in E.
    rewrite !addrToString_ipv4_Split in E.
    pose proof (component_range a0) as Ra. pose proof (component_range b0) as Rb.
    injection E as E0 E1 E2 E3.
    apply fmt_d_inj in E0, E1, E2, E3; try (apply Ra; lia); try (apply Rb; lia).
    now rewrite (int32_of_components a0 b0).
  - exfalso. apply (f_equal (fun s => length (Split s "."))) in E.
    rewrite addrToString_ipv4_Split in E.
    unfold Split in E at 1.
    rewrite Split_from_lacks in E by apply (addrToString_ipv6_lacks_dot _ _ _ _ Hb).
    discriminate E.
  - exfalso. apply (f_equal (fun s => length (Split s "."))) in E.
    rewrite addrToString_ipv4_Split in E.
    unfold Split in E at 1.
    rewrite Split_from_lacks in E by apply (addrToString_ipv6_lacks_dot _ _ _ _ Ha).
    discriminate E.
  - apply (f_equal (fun s => Split s ":")) in E.
    rewrite (addrToString_ipv6_Split _ _ _ _ Ha),
            (addrToString_ipv6_Split _ _ _ _ Hb) in E.
    injection E as E0 E1 E2 E3 E4 E5 E6 E7.
    pose proof (low16_range a0). pose proof (low16_range a1).
    pose proof (low16_range a2). pose proof (low16_range a3).
    pose proof (high16_range a0). pose proof (high16_range a1).
    pose proof (high16_range a2). pose proof (high16_range a3).
    pose proof (low16_range b0). pose proof (low16_range b1).
    pose proof (low16_range b2). pose proof (low16_range b3).
    pose proof (high16_range b0). pose proof (high16_range b1).
    pose proof (high16_range b2). pose proof (high16_range b3).
    apply fmt_x_inj in E0, E1, E2, E3, E4, E5, E6, E7; try lia.
    rewrite (int32_of_halves a0 b0), (int32_of_halves a1 b1),
            (int32_of_halves a2 b2), (int32_of_halves a3 b3) by assumption.
    reflexivity.
Qed.

Lemma addrToString_injective_witness :
  is_addr (0x0100007F, 0, 0, 0) /\ is_addr (16777343, 0, 0, 0) /\
  (0x0100007F, 0, 0, 0) = (16777343, 0, 0, 0).
Proof.
  assert (H : is_addr (0x0100007F, 0, 0, 0)) by (unfold is_addr, is_int32; lia).
  split; [exact H|]. split; [exact H|].
  exact (addrToString_injective (0x0100007F, 0, 0, 0) (16777343, 0, 0, 0) H H eq_refl).
Defined.

End AddressText.

(** ** Private ranges on dotted quads *)

Section IntranetQuads.

Lemma HasPrefix_part (A p rest : string) :
  lacks "." A -> lacks "." p ->
  HasPrefix (A +:+ String "." rest) (p +:+ String "." EmptyString) = true <-> A = p.
Proof.
  intros HA Hp. rewrite HasPrefix_starts_with. split.
  - intros [t Ht]. rewrite append_assoc in Ht.
    change (String "." EmptyString +:+ t) with (String "." t) in Ht.
    now destruct (first_separator_unique _ _ _ _ _ HA Hp Ht).
  - intros ->. exists rest. rewrite append_assoc. reflexivity.
Qed.

Lemma HasPrefix_two_parts (A B p q rest : string) :
  lacks "." A -> lacks "." B -> lacks "." p -> lacks "." q ->
  HasPrefix (A +:+ String "." (B +:+ String "." rest))
            (p +:+ String "." (q +:+ String "." EmptyString)) = true <->
  A = p /\ B = q.
Proof.
  intros HA HB Hp Hq. rewrite HasPrefix_starts_with. split.
  - intros [t Ht]. rewrite append_assoc in Ht.
    change (String "." (q +:+ String "." EmptyString) +:+ t)
      with (String "." ((q +:+ String "." EmptyString) +:+ t)) in Ht.
    rewrite append_assoc in Ht.
    change (String "." EmptyString +:+ t) with (String "." t) in Ht.
    destruct (first_separator_unique _ _ _ _ _ HA Hp Ht) as [-> Ht'].
    now destruct (first_separator_unique _ _ _ _ _ HB Hq Ht').
  - intros [-> ->]. exists rest. rewrite append_assoc.
    change (String "." (q +:+ String "." EmptyString) +:+ rest)
      with (String "." ((q +:+ String "." EmptyString) +:+ rest)).
    rewrite append_assoc. reflexivity.
Qed.

Lemma IP_String_join (a b c d : byte) :
  IP_String [a; b; c; d] =
  join "." (map fmt_d [byte_val a; byte_val b; byte_val c; byte_val d]).
Proof. reflexivity. Qed.

Lemma fmt_d_byte_lacks_dot (b : byte) : lacks "." (fmt_d (byte_val b)).
Proof. apply fmt_d_lacks; [apply byte_val_range|reflexivity]. Qed.

Lemma fmt_d_byte_is (b : byte) (v : Z) :
  0 <= v -> fmt_d (byte_val b) = fmt_d v <-> byte_val b = v.
Proof.
  intros Hv. pose proof (byte_val_range b). split; [|now intros ->].
  apply fmt_d_inj; lia.
Qed.

Lemma IsIntranet_quad (a b c d : byte) :
  IsIntranet (IP_String [a; b; c; d]) = private_range (byte_val a) (byte_val b).
Proof.
  assert (Hdot : forall x : byte, lacks "." (fmt_d (byte_val x)))
    by exact fmt_d_byte_lacks_dot.
  assert (HS : Split (IP_String [a; b; c; d]) "." =
               map fmt_d [byte_val a; byte_val b; byte_val c; byte_val d]).
  { rewrite IP_String_join. apply Split_join; [discriminate|].
    repeat constructor; apply Hdot. }
  assert (H10 : HasPrefix (IP_String [a; b; c; d]) "10." = (byte_val a =? 10)).
  { apply Bool.eq_iff_eq_true. rewrite Z.eqb_eq, <- (fmt_d_byte_is a 10) by lia.
    apply (HasPrefix_part _ "10"); [apply Hdot|apply (Hdot "010"%byte)]. }
  assert (H172 : HasPrefix (IP_String [a; b; c; d]) "172." = (byte_val a =? 172)).
  { apply Bool.eq_iff_eq_true. rewrite Z.eqb_eq, <- (fmt_d_byte_is a 172) by lia.
    apply (HasPrefix_part _ "172"); [apply Hdot|apply (Hdot "172"%byte)]. }
  assert (H192 : HasPrefix (IP_String [a; b; c; d]) "192.168." =
                 (byte_val a =? 192) && (byte_val b =? 168)).
  { apply Bool.eq_iff_eq_true.
    rewrite andb_true_iff, !Z.eqb_eq,
      <- (fmt_d_byte_is a 192), <- (fmt_d_byte_is b 168) by lia.
    apply (HasPrefix_two_parts _ _ "192" "168");
      [apply Hdot|apply Hdot|apply (Hdot "192"%byte)|apply (Hdot "168"%byte)]. }
  unfold IsIntranet, private_range. rewrite H10, H192, H172, HS.
  cbn [map length nth Nat.eqb negb]. rewrite ParseInt_fmt_d_byte.
  rewrite Z.geb_leb.
  destruct (byte_val a =? 10) eqn:E10; [reflexivity|].
  destruct ((byte_val a =? 192) && (byte_val b =? 168)) eqn:E192; [reflexivity|].
  cbn [orb]. destruct (byte_val a =? 172); reflexivity.
Qed.

(** X5. On the dotted quad of an IPv4 address, [IsIntranet] is the test of the
    three private ranges 10.0.0.0/8, 192.168.0.0/16 and 172.16.0.0/12. *)
Theorem IsIntranet_dotted_quad (a b c d : byte) :
  IsIntranet (IP_String [a; b; c; d]) = private_range (byte_val a) (byte_val b) /\
  (IsIntranet (IP_String [a; b; c; d]) = true <->
   byte_val a = 10 \/ (byte_val a = 192 /\ byte_val b = 168) \/
   (byte_val a = 172 /\ 16 <= byte_val b <= 31)).
Proof.
  split; [apply IsIntranet_quad|].
  rewrite IsIntranet_quad. unfold private_range.
  rewrite !orb_true_iff, !andb_true_iff, !Z.eqb_eq, !Z.leb_le. tauto.
Qed.

End IntranetQuads.

(** ** Interface names and addresses: [HasInterfacePrefix] and [IP] *)

Section Interfaces.

Lemma HasInterfacePrefix_app (l1 l2 : list string) (name : string) :
  HasInterfacePrefix (l1 ++ l2) name =
  HasInterfacePrefix l1 name || HasInterfacePrefix l2 name.
Proof.
  induction l1 as [|p l1 IH]; [reflexivity|].
  cbn [app HasInterfacePrefix]. destruct (HasPrefix name p); [reflexivity|exact IH].
Qed.

(** X1. A name is accepted exactly when it starts with one of the configured
    prefixes: no name is accepted by an empty configuration, every name is
    accepted when the empty prefix is configured, and the order of the
    prefixes does not matter. *)
Theorem HasInterfacePrefix_iff (IfacePrefix : list string) (name : string) :
  (HasInterfacePrefix IfacePrefix name = true <->
   exists p t : string, p ∈ IfacePrefix /\ name = p +:+ t) /\
  HasInterfacePrefix [] name = false /\
  (EmptyString ∈ IfacePrefix -> HasInterfacePrefix IfacePrefix name = true) /\
  (forall l : list string,
      HasInterfacePrefix (IfacePrefix ++ l) name = HasInterfacePrefix (l ++ IfacePrefix) name).
Proof.
  assert (Hiff : forall l, HasInterfacePrefix l name = true <->
                           exists p t : string, p ∈ l /\ name = p +:+ t).
  { induction l as [|q l IH]; cbn [HasInterfacePrefix].
    - split; [discriminate|]. intros (p & t & Hp & _). now apply elem_of_nil in Hp.
    - destruct (HasPrefix name q) eqn:E.
      + split; [intros _|reflexivity].
        apply HasPrefix_starts_with in E as [t Ht].
        exists q, t. split; [apply elem_of_cons; now left|exact Ht].
      + rewrite IH. split.
        * intros (p & t & Hp & Ht). exists p, t. split; [apply elem_of_cons; now right|exact Ht].
        * intros (p & t & Hp & Ht). apply elem_of_cons in Hp as [->|Hp].
          -- assert (HasPrefix name q = true) by (apply HasPrefix_starts_with; now exists t).
             congruence.
          -- now exists p, t. }
  split; [apply Hiff|]. split; [reflexivity|]. split.
  - intros Hin. apply Hiff. exists EmptyString, name. split; [exact Hin|reflexivity].
  - intros l. rewrite !HasInterfacePrefix_app. apply orb_comm.
Qed.

Lemma HasInterfacePrefix_iff_witness :
  (EmptyString ∈ ["eth"; ""]%string) /\
  HasInterfacePrefix ["eth"; ""]%string "docker0" = true.
Proof.
  assert (Hin : EmptyString ∈ ["eth"; ""]%string)
    by (apply elem_of_cons; right; apply elem_of_cons; now left).
  split; [exact Hin|].
  exact (proj1 (proj2 (proj2 (HasInterfacePrefix_iff ["eth"; ""]%string "docker0"))) Hin).
Defined.

Lemma To4_nil : To4 [] = [].
Proof. reflexivity. Qed.

Lemma To4_cases (ip : list byte) :
  To4 ip = [] \/ exists a b c d : byte, To4 ip = [a; b; c; d].
Proof.
  unfold To4.
  destruct (Nat.eqb_spec (length ip) IPv4len) as [E4|_].
  - right. destruct ip as [|a [|b [|c [|d [|]]]]]; try discriminate E4.
    now exists a, b, c, d.
  - destruct (Nat.eqb_spec (length ip) IPv6len) as [E6|_]; cbn [andb]; [|now left].
    destruct (isZeros (take 10 ip) && byte_is (at_ ip 10) 255 && byte_is (at_ ip 11) 255);
      [|now left].
    right.
    assert (Hl : length (take 4 (drop 12 ip)) = 4%nat).
    { rewrite length_take, length_drop, E6. reflexivity. }
    destruct (take 4 (drop 12 ip)) as [|a [|b [|c [|d [|]]]]]; try discriminate Hl.
    now exists a, b, c, d.
Qed.

Lemma byte_is_inj (b : byte) (v : byte) :
  byte_is b (Z.of_N (Byte.to_N v)) = true -> b = v.
Proof.
  unfold byte_is. rewrite Z.eqb_eq. intros E. apply N2Z.inj in E.
  apply (f_equal Byte.of_N) in E. rewrite !Byte.of_to_N in E. congruence.
Qed.

(** The addresses with an IPv4 form: those of four bytes, and the
    IPv4-mapped IPv6 addresses ::ffff:a.b.c.d. *)
Lemma To4_Some (ip : list byte) (a b c d : byte) :
  To4 ip = [a; b; c; d] <->
  ip = [a; b; c; d] \/ ip = repeat x00 10 ++ [xff; xff; a; b; c; d].
Proof.
  split.
  - unfold To4.
    destruct (Nat.eqb_spec (length ip) IPv4len) as [E4|N4]; [now left|].
    destruct (Nat.eqb_spec (length ip) IPv6len) as [E6|_]; cbn [andb]; [|discriminate].
    do 17 (destruct ip as [|? ip]; try discriminate E6).
    cbn [take drop isZeros forallb at_ nth andb].
    destruct (byte_is b0 0) eqn:Z0; [|discriminate].
    destruct (byte_is b1 0) eqn:Z1; [|discriminate].
    destruct (byte_is b2 0) eqn:Z2; [|discriminate].
    destruct (byte_is b3 0) eqn:Z3; [|discriminate].
    destruct (byte_is b4 0) eqn:Z4; [|discriminate].
    destruct (byte_is b5 0) eqn:Z5; [|discriminate].
    destruct (byte_is b6 0) eqn:Z6; [|discriminate].
    destruct (byte_is b7 0) eqn:Z7; [|discriminate].
    destruct (byte_is b8 0) eqn:Z8; [|discriminate].
    destruct (byte_is b9 0) eqn:Z9; [|discriminate].
    destruct (byte_is b10 255) eqn:F0; [|discriminate].
    destruct (byte_is b11 255) eqn:F1; [|discriminate].
    cbn [andb]. intros [= -> -> -> ->]. right.
    apply (byte_is_inj _ x00) in Z0, Z1, Z2, Z3, Z4, Z5, Z6, Z7, Z8, Z9.
    apply (byte_is_inj _ xff) in F0, F1. subst. reflexivity.
  - intros [-> | ->]; reflexivity.
Qed.

Lemma IP_addr_reported (ips : list string) (addr : Addr) :
  IP_addr ips addr = ips ++ option_list (reported addr).
Proof.
  unfold IP_addr, reported.
  change (match addr with IPNet ip => ip | IPAddr ip => ip | OtherAddr => [] end)
    with (ip_of addr).
  destruct (To4_cases (ip_of addr)) as [E|(a & b & c & d & E)].
  - rewrite E. cbn [option_list]. rewrite app_nil_r.
    destruct (is_nil (ip_of addr) || IsLoopback (ip_of addr)
              || IsLinkLocalMulticast (ip_of addr) || IsLinkLocalUnicast (ip_of addr));
      reflexivity.
  - assert (Hnn : is_nil (ip_of addr) = false).
    { destruct (ip_of addr); [discriminate E|reflexivity]. }
    unfold IsLoopback, IsLinkLocalMulticast, IsLinkLocalUnicast.
    rewrite Hnn, E. cbn [is_nil negb at_ nth orb].
    destruct (byte_is a 127); [now rewrite app_nil_r|]. cbn [orb].
    destruct (byte_is a 224 && byte_is b 0 && byte_is c 0) eqn:E224;
      destruct (byte_is a 169 && byte_is b 254) eqn:E169; cbn [orb option_list];
      now rewrite ?app_nil_r.
Qed.

Lemma IP_addrs_reported (addrs : list Addr) :
  forall ips : list string, foldl IP_addr ips addrs = ips ++ omap reported addrs.
Proof.
  induction addrs as [|addr addrs IH]; intros ips; cbn [foldl omap list_omap].
  - now rewrite app_nil_r.
  - rewrite IH, IP_addr_reported, <- app_assoc. f_equal.
    destruct (reported addr); reflexivity.
Qed.

End Interfaces.

Section Addresses.

Variable IfacePrefix : list string.

Lemma IP_ifaces_skip (iface : Interface) (rest : list Interface) (ips : list string) :
  considered IfacePrefix iface = false ->
  IP_ifaces IfacePrefix (iface :: rest) ips = IP_ifaces IfacePrefix rest ips.
Proof.
  unfold considered. cbn [IP_ifaces]. intros H.
  destruct (Z.land (if_Flags iface) FlagUp =? 0); [reflexivity|].
  destruct (Z.land (if_Flags iface) FlagLoopback =? 0); [|reflexivity].
  destruct (HasInterfacePrefix IfacePrefix (if_Name iface)); [discriminate H|reflexivity].
Qed.

Lemma IP_ifaces_take (iface : Interface) (rest : list Interface) (ips : list string) :
  considered IfacePrefix iface = true ->
  IP_ifaces IfacePrefix (iface :: rest) ips =
  match if_Addrs iface with
  | inl e => (ips, Some e)
  | inr addrs => IP_ifaces IfacePrefix rest (ips ++ omap reported addrs)
  end.
Proof.
  unfold considered. cbn [IP_ifaces]. intros H.
  destruct (Z.land (if_Flags iface) FlagUp =? 0); [discriminate H|].
  destruct (Z.land (if_Flags iface) FlagLoopback =? 0); [|discriminate H].
  destruct (HasInterfacePrefix IfacePrefix (if_Name iface)); [|discriminate H].
  cbn [negb]. destruct (if_Addrs iface); [reflexivity|].
  now rewrite IP_addrs_reported.
Qed.

Lemma reported_of_cons (iface : Interface) (rest : list Interface) :
  reported_of IfacePrefix (iface :: rest) =
  (if considered IfacePrefix iface then omap reported (addrs_of iface) else [])
  ++ reported_of IfacePrefix rest.
Proof.
  unfold reported_of. rewrite filter_cons.
  destruct (considered IfacePrefix iface) eqn:E.
  - rewrite decide_True by reflexivity. reflexivity.
  - rewrite decide_False by discriminate. reflexivity.
Qed.

Lemma reported_of_app (l1 l2 : list Interface) :
  reported_of IfacePrefix (l1 ++ l2) =
  reported_of IfacePrefix l1 ++ reported_of IfacePrefix l2.
Proof. unfold reported_of. now rewrite filter_app, flat_map_app. Qed.

(** The loop up to its end, when no call of Addrs that is made fails. *)
Lemma IP_ifaces_ok (ifaces : list Interface) :
  forall ips : list string,
    Forall (fun iface => considered IfacePrefix iface = true -> ~ addrs_fail iface) ifaces ->
    IP_ifaces IfacePrefix ifaces ips = (ips ++ reported_of IfacePrefix ifaces, None).
Proof.
  induction ifaces as [|iface rest IH]; intros ips Hok.
  - cbn. now rewrite app_nil_r.
  - apply Forall_cons in Hok as [Hi Hrest]. rewrite reported_of_cons.
    destruct (considered IfacePrefix iface) eqn:E.
    + rewrite (IP_ifaces_take _ _ _ E). unfold addrs_of.
      destruct (if_Addrs iface) as [e|addrs] eqn:EA.
      * exfalso. apply (Hi eq_refl). now exists e.
      * rewrite (IH _ Hrest), <- app_assoc. reflexivity.
    + rewrite (IP_ifaces_skip _ _ _ E). now rewrite (IH _ Hrest).
Qed.


Lemma reported_quad (addr : Addr) (s : string) :
  reported addr = Some s ->
  exists a b c d : byte,
    To4 (ip_of addr) = [a; b; c; d] /\ s = IP_String [a; b; c; d] /\
    byte_val a <> 127 /\ ~ (byte_val a = 169 /\ byte_val b = 254) /\
    ~ (byte_val a = 224 /\ byte_val b = 0 /\ byte_val c = 0).
Proof.
  unfold reported.
  destruct (To4_cases (ip_of addr)) as [E|(a & b & c & d & E)]; rewrite E; [discriminate|].
  unfold byte_is. fold (byte_val a) (byte_val b) (byte_val c).
  destruct (Z.eqb_spec (byte_val a) 127); [discriminate|].
  destruct (Z.eqb_spec (byte_val a) 169), (Z.eqb_spec (byte_val b) 254);
    try discriminate;
    destruct (Z.eqb_spec (byte_val a) 224), (Z.eqb_spec (byte_val b) 0),
             (Z.eqb_spec (byte_val c) 0); try discriminate;
    cbn [andb orb]; intros [= <-]; exists a, b, c, d; repeat split; lia.
Qed.

Lemma IP_ifaces_elem (ifaces : list Interface) :
  forall (ips : list string) (s : string),
    s ∈ fst (IP_ifaces IfacePrefix ifaces ips) ->
    s ∈ ips \/
    exists (iface : Interface) (addr : Addr),
      iface ∈ ifaces /\ considered IfacePrefix iface = true /\
      addr ∈ addrs_of iface /\ reported addr = Some s.
Proof.
  induction ifaces as [|iface rest IH]; intros ips s Hs; [now left|].
  destruct (considered IfacePrefix iface) eqn:E.
  - rewrite (IP_ifaces_take _ _ _ E) in Hs.
    destruct (if_Addrs iface) as [e|addrs] eqn:EA; [now left|].
    destruct (IH _ _ Hs) as [Hin|(i & addr & Hi & Hc & Ha & Hr)].
    + apply elem_of_app in Hin as [Hin|Hin]; [now left|].
      apply list_elem_of_omap in Hin as (addr & Ha & Hr).
      right. exists iface, addr. split; [apply elem_of_cons; now left|].
      split; [exact E|]. split; [|exact Hr]. unfold addrs_of. now rewrite EA.
    + right. exists i, addr. split; [apply elem_of_cons; now right|]. auto.
  - rewrite (IP_ifaces_skip _ _ _ E) in Hs.
    destruct (IH _ _ Hs) as [Hin|(i & addr & Hi & Hc & Ha & Hr)]; [now left|].
    right. exists i, addr. split; [apply elem_of_cons; now right|]. auto.
Qed.

(** X2. When every interface that is up, not a loopback and of a configured
    name gives its addresses, [IP] returns no error and, in the order of
    the interfaces and of their addresses, the dotted quad of every address
    that has an IPv4 form outside 127/8, 169.254/16 and 224.0.0/24. The
    interfaces that are passed over are never asked for their addresses. *)
Theorem IP_all_succeed (ifaces : list Interface) :
  Forall (fun iface => considered IfacePrefix iface = true -> ~ addrs_fail iface) ifaces ->
  IP IfacePrefix (inr ifaces) = (reported_of IfacePrefix ifaces, None).
Proof. intros Hok. unfold IP. now rewrite (IP_ifaces_ok _ _ Hok). Qed.


(** X4. Every string that [IP] returns, with or without an error, is the dotted
    quad a.b.c.d of an address of four bytes, or of an IPv4-mapped address
    of sixteen, that an interface which is up, not a loopback and of a
    configured name holds; it is not in 127/8, 169.254/16 or 224.0.0/24, and
    [IsIntranet] tells of it whether it is in a private range. *)
Theorem IP_returns_quads (Interfaces : error + list Interface) (s : string) :
  s ∈ fst (IP IfacePrefix Interfaces) ->
  exists (ifaces : list Interface) (iface : Interface) (addr : Addr) (a b c d : byte),
    Interfaces = inr ifaces /\ iface ∈ ifaces /\
    considered IfacePrefix iface = true /\ addr ∈ addrs_of iface /\
    (ip_of addr = [a; b; c; d] \/
     ip_of addr = repeat x00 10 ++ [xff; xff; a; b; c; d]) /\
    s = IP_String [a; b; c; d] /\
    byte_val a <> 127 /\ ~ (byte_val a = 169 /\ byte_val b = 254) /\
    ~ (byte_val a = 224 /\ byte_val b = 0 /\ byte_val c = 0) /\
    IsIntranet s = private_range (byte_val a) (byte_val b).
Proof.
  destruct Interfaces as [e|ifaces]; cbn [IP fst]; intros Hs.
  - now apply elem_of_nil in Hs.
  - apply IP_ifaces_elem in Hs as [Hs|(iface & addr & Hi & Hc & Ha & Hr)];
      [now apply elem_of_nil in Hs|].
    apply reported_quad in Hr as (a & b & c & d & E4 & -> & H127 & H169 & H224).
    exists ifaces, iface, addr, a, b, c, d.
    repeat (split; [first [reflexivity|assumption|now apply To4_Some]|]).
    apply IsIntranet_quad.
Qed.

End Addresses.

Lemma IP_all_succeed_witness :
  Forall (fun iface => considered ["eth"; "en"]%string iface = true -> ~ addrs_fail iface)
         host_interfaces /\
  IP ["eth"; "en"]%string (inr host_interfaces) = (["10.1.2.3"; "192.168.0.5"]%string, None).
Proof.
  assert (H : Forall (fun iface => considered ["eth"; "en"]%string iface = true ->
                                   ~ addrs_fail iface) host_interfaces).
  { repeat constructor; intros Hc; try discriminate Hc; intros [e He]; discriminate He. }
  split; [exact H|].
  exact (IP_all_succeed ["eth"; "en"]%string host_interfaces H).
Defined.


Lemma IP_returns_quads_witness :
  ("192.168.0.5"%string ∈ fst (IP ["eth"]%string (inr host_interfaces))) /\
  exists a b c d : byte,
    "192.168.0.5"%string = IP_String [a; b; c; d] /\
    IsIntranet "192.168.0.5" = private_range (byte_val a) (byte_val b).
Proof.
  assert (H : "192.168.0.5"%string ∈ fst (IP ["eth"]%string (inr host_interfaces))).
  { apply elem_of_cons; right. apply elem_of_cons; now left. }
  split; [exact H|].
  destruct (IP_returns_quads ["eth"]%string _ _ H)
    as (ifaces & iface & addr & a & b & c & d & _ & _ & _ & _ & _ & Hs & _ & _ & _ & HI).
  exists a, b, c, d. split; [exact Hs|exact HI].
Defined.

(** ** Raw and normalised records *)

Section Records.

Lemma length_string_of_list_byte (l : list byte) :
  String.length (string_of_list_byte l) = length l.
Proof.
  unfold string_of_list_byte. induction l as [|x l IH]; [reflexivity|].
  cbn [map string_of_list_ascii String.length length]. now rewrite IH.
Qed.

Lemma IndexByte_cases (b : list byte) (c : byte) :
  c ∉ b \/ exists pre post : list byte, b = pre ++ c :: post /\ c ∉ pre.
Proof.
  induction b as [|x b IH].
  - left. apply not_elem_of_nil.
  - destruct (Byte.eqb x c) eqn:E.
    + apply byte_dec_bl in E as ->. right. exists [], b.
      split; [reflexivity|apply not_elem_of_nil].
    + apply Byte.eqb_false in E. destruct IH as [Hn|(pre & post & -> & Hpre)].
      * left. apply not_elem_of_cons. split; [congruence|exact Hn].
      * right. exists (x :: pre), post. split; [reflexivity|].
        apply not_elem_of_cons. split; [congruence|exact Hpre].
Qed.

(** X9. The slice [b[:getByteLen(b)]] is always inside the buffer: the string
    that is extracted is a prefix of the buffer, holds no null byte, has
    [getByteLen b] bytes, and is strictly shorter than a buffer that is not
    empty. *)
Theorem cstring_is_prefix (b : list byte) :
  0 <= getByteLen b <= Z.of_nat (length b) /\
  (b <> [] -> getByteLen b < Z.of_nat (length b)) /\
  Z.of_nat (String.length (cstring b)) = getByteLen b /\
  (exists rest : list byte, b = list_byte_of_string (cstring b) ++ rest) /\
  x00 ∉ list_byte_of_string (cstring b).
Proof.
  destruct (IndexByte_cases b x00) as [Hn|(pre & post & -> & Hpre)].
  - unfold cstring. rewrite (getByteLen_absent _ Hn). cbn [Z.to_nat take].
    split; [lia|]. split; [destruct b; [congruence|cbn [length]; lia]|].
    split; [reflexivity|]. split; [now exists b|apply not_elem_of_nil].
  - unfold cstring. rewrite (getByteLen_first _ _ Hpre), Nat2Z.id, take_app_length.
    rewrite length_string_of_list_byte, list_byte_of_string_of_list_byte.
    rewrite length_app. cbn [length].
    split; [lia|]. split; [lia|]. split; [reflexivity|].
    split; [now exists (x00 :: post)|exact Hpre].
Qed.

Lemma is_signed_16 (x : Z) : is_signed 16 (int16 x).
Proof.
  unfold is_signed, int16, wrap_signed.
  change (2 ^ 16) with 65536. change (2 ^ (16 - 1)) with 32768.
  pose proof (Z.mod_pos_bound x 65536 ltac:(lia)).
  destruct (Z.ltb_spec (x mod 65536) 32768); lia.
Qed.

Lemma is_signed_32 (x : Z) : is_signed 32 (int32 x).
Proof. exact (int32_range x). Qed.

Lemma length_slice (off len : nat) (b : list byte) :
  (off + len <= length b)%nat -> length (slice off len b) = len.
Proof. intros H. unfold slice. rewrite length_take, length_drop. lia. Qed.

Lemma decodeUtmp_is_Utmp (b : list byte) :
  length b = recordSize -> is_Utmp (decodeUtmp b).
Proof.
  intros Hlen. unfold is_Utmp, decodeUtmp, is_addr, LineSize, NameSize, HostSize.
  cbn [u_Type u_Pid u_Device u_Id u_User u_Host u_Exit u_Session u_Time u_Addr
       u_Reserved Termination Exit Sec Usec].
  unfold recordSize in Hlen.
  repeat split;
    first [apply is_signed_16 | apply is_signed_32 | apply int32_range
          | apply length_slice; lia
          | apply (proj1 (is_signed_16 _)) | apply (proj2 (is_signed_16 _))
          | apply (proj1 (is_signed_32 _)) | apply (proj2 (is_signed_32 _))
          | apply (proj1 (int32_range _)) | apply (proj2 (int32_range _)) ].
Qed.

Lemma record_at_is_Utmp (file : list byte) (n : nat) :
  (n < length file / recordSize)%nat -> is_Utmp (record_at file n).
Proof.
  intros Hn. unfold record_at. apply decodeUtmp_is_Utmp, length_slice.
  pose proof (Nat.div_mod_eq (length file) recordSize). unfold recordSize in *. nia.
Qed.

Lemma Read_elem (file : list byte) (u : Utmp) :
  u ∈ fst (Read file) ->
  exists n : nat, (n < length file / recordSize)%nat /\ u = record_at file n.
Proof.
  rewrite Read_total.
  destruct (length file mod recordSize =? 0)%nat; cbn [fst]; intros Hu.
  - apply list_elem_of_lookup in Hu as [n Hn].
    apply records_lookup in Hn. now exists n.
  - now apply elem_of_nil in Hu.
Qed.

(** X10. Every record that [Read] returns has the shape the struct declares:
    arrays of 32, 4, 32, 256 and 20 bytes and integers of 16 and 32 bits. *)
Theorem Read_records_are_Utmp (file : list byte) :
  Forall is_Utmp (fst (Read file)).
Proof.
  apply Forall_forall. intros u Hu.
  apply Read_elem in Hu as (n & Hn & ->). now apply record_at_is_Utmp.
Qed.

Lemma cstring_shorter (b : list byte) (n : nat) :
  length b = n -> n <> 0%nat -> (String.length (cstring b) < n)%nat.
Proof.
  intros Hl Hn. unfold cstring. rewrite length_string_of_list_byte.
  destruct (IndexByte_cases b x00) as [Ha|(pre & post & -> & Hpre)].
  - rewrite (getByteLen_absent _ Ha). change (Z.to_nat 0) with 0%nat.
    rewrite take_0. cbn [length]. lia.
  - rewrite (getByteLen_first _ _ Hpre), Nat2Z.id, take_app_length.
    rewrite length_app in Hl. cbn [length] in Hl. lia.
Qed.

Lemma cstring_no_null (b : list byte) : x00 ∉ list_byte_of_string (cstring b).
Proof.
  unfold cstring. rewrite list_byte_of_string_of_list_byte.
  destruct (IndexByte_cases b x00) as [Ha|(pre & post & -> & Hpre)].
  - rewrite (getByteLen_absent _ Ha). apply not_elem_of_nil.
  - now rewrite (getByteLen_first _ _ Hpre), Nat2Z.id, take_app_length.
Qed.

(** X11. The strings of the record normalised from a record that [Read]
    returned: device and user have at most 31 bytes, id at most 3, host at
    most 255, and none holds a null byte. *)
Theorem NewGoUtmp_strings_bounded (file : list byte) (n : nat) (u : Utmp) :
  fst (Read file) !! n = Some u ->
  (String.length (g_Device (NewGoUtmp u)) <= 31)%nat /\
  (String.length (g_Id (NewGoUtmp u)) <= 3)%nat /\
  (String.length (g_User (NewGoUtmp u)) <= 31)%nat /\
  (String.length (g_Host (NewGoUtmp u)) <= 255)%nat /\
  (x00 ∉ list_byte_of_string (g_Device (NewGoUtmp u))) /\
  (x00 ∉ list_byte_of_string (g_Id (NewGoUtmp u))) /\
  (x00 ∉ list_byte_of_string (g_User (NewGoUtmp u))) /\
  x00 ∉ list_byte_of_string (g_Host (NewGoUtmp u)).
Proof.
  intros Hu.
  assert (Hin : u ∈ fst (Read file)) by (apply list_elem_of_lookup; now exists n).
  apply Read_elem in Hin as (m & Hm & ->).
  destruct (record_at_is_Utmp file m Hm)
    as (_ & _ & HD & HI & HU & HH & _).
  cbn [NewGoUtmp g_Device g_Id g_User g_Host].
  pose proof (cstring_shorter _ _ HD ltac:(discriminate)).
  pose proof (cstring_shorter _ _ HI ltac:(discriminate)).
  pose proof (cstring_shorter _ _ HU ltac:(discriminate)).
  pose proof (cstring_shorter _ _ HH ltac:(discriminate)).
  unfold LineSize, NameSize, HostSize in *.
  repeat split; try lia; apply cstring_no_null.
Qed.

Lemma NewGoUtmp_strings_bounded_witness :
  fst (Read two_logins) !! 1%nat = Some (record_at two_logins 1) /\
  (String.length (g_User (NewGoUtmp (record_at two_logins 1))) <= 31)%nat.
Proof.
  assert (H : fst (Read two_logins) !! 1%nat = Some (record_at two_logins 1))
    by (vm_compute; reflexivity).
  split; [exact H|].
  exact (proj1 (proj2 (proj2 (NewGoUtmp_strings_bounded two_logins 1 _ H)))).
Defined.

(** X12. The instant of a normalised record is the whole second of the raw
    record, before or after 1970: its Unix time is the seconds field, and
    the microseconds are dropped. *)
Theorem NewGoUtmp_time_is_seconds (u : Utmp) :
  is_signed 32 (Sec (u_Time u)) ->
  Time_Unix (g_Time (NewGoUtmp u)) = Sec (u_Time u) /\
  g_Time (NewGoUtmp u) = Sec (u_Time u) * Second /\
  (forall usec : Z,
      g_Time (NewGoUtmp
                (mkUtmp (u_Type u) (u_Pid u) (u_Device u) (u_Id u) (u_User u) (u_Host u)
                        (u_Exit u) (u_Session u) (mkTimeVal (Sec (u_Time u)) usec)
                        (u_Addr u) (u_Reserved u))) =
      g_Time (NewGoUtmp u)).
Proof.
  intros Hs. cbn [NewGoUtmp g_Time u_Time Sec]. unfold Unix, Time_Unix.
  rewrite (int64_of_int32 _ Hs), Z.add_0_r.
  split; [apply Z.div_mul; discriminate|]. split; reflexivity.
Qed.

Lemma NewGoUtmp_time_is_seconds_witness :
  is_signed 32 (Sec (u_Time (record_at two_logins 1))) /\
  Time_Unix (g_Time (NewGoUtmp (record_at two_logins 1))) = 1700000100.
Proof.
  assert (H : is_signed 32 (Sec (u_Time (record_at two_logins 1))))
    by apply is_signed_32.
  split; [exact H|].
  exact (proj1 (NewGoUtmp_time_is_seconds _ H)).
Defined.

End Records.

(** ** Streams that grow *)

Section Appending.

Lemma records_app (k : nat) :
  forall (k2 : nat) (f1 f2 : list byte),
    length f1 = (k * recordSize)%nat ->
    records (k + k2) (f1 ++ f2) = records k f1 ++ records k2 f2.
Proof.
  induction k as [|k IH]; intros k2 f1 f2 Hlen.
  - destruct f1; [reflexivity|discriminate Hlen].
  - cbn [Nat.add]. rewrite !records_S.
    rewrite take_app_le, drop_app_le by lia.
    rewrite IH by (rewrite length_drop; lia). reflexivity.
Qed.

(** X14. Reading a stream that starts with whole records: when the rest of the
    stream is read without an error, the records of the start are followed
    by the records of the rest; when the rest ends in a truncated record,
    the records of the start are lost with it. *)
Theorem Read_app (f1 f2 : list byte) (k : nat) :
  length f1 = (k * recordSize)%nat ->
  Read (f1 ++ f2) =
  match Read f2 with
  | (us, None) => (fst (Read f1) ++ us, None)
  | (_, Some e) => ([], Some e)
  end.
Proof.
  intros Hlen. pose proof recordSize_pos as Hpos.
  rewrite (Read_whole f1 k Hlen). cbn [fst].
  rewrite (Read_total (f1 ++ f2)), (Read_total f2).
  rewrite length_app, Hlen.
  replace (k * recordSize + length f2)%nat with (length f2 + k * recordSize)%nat by lia.
  rewrite Nat.Div0.mod_add, Nat.div_add by lia.
  destruct (length f2 mod recordSize =? 0)%nat; [|reflexivity].
  f_equal. rewrite Nat.add_comm. now apply records_app.
Qed.

Lemma Read_app_witness :
  length (login_record "root" "10.0.0.7" 1700000000) = (1 * recordSize)%nat /\
  Read two_logins =
  (fst (Read (login_record "root" "10.0.0.7" 1700000000)) ++
   fst (Read (login_record "ann" "" 1700000100)), None).
Proof.
  assert (H : length (login_record "root" "10.0.0.7" 1700000000) = (1 * recordSize)%nat)
    by reflexivity.
  split; [exact H|].
  exact (Read_app (login_record "root" "10.0.0.7" 1700000000)
           (login_record "ann" "" 1700000100) 1 H).
Defined.

(** X15. What [WtmpMetrics] logs in the runs where the file either cannot be
    opened or is read up to its end without a read error ([wtmp] is the
    error of os.Open or the bytes of the file): one line when the file
    cannot be opened, one line when the stream ends inside a record, and
    nothing when the stream is made of whole records, also when the run
    panics. A read that fails for another reason is outside these runs. *)
Theorem WtmpMetrics_log (wtmp : error + list byte) (clock : nat -> Time) :
  snd (run (WtmpMetrics wtmp clock)) =
  match wtmp with
  | inl err => [LogError "open wtmp file failed:" err]
  | inr file =>
      if (length file mod recordSize =? 0)%nat then []
      else [LogError "read wtmp file failed:" ErrUnexpectedEOF]
  end.
Proof.
  destruct wtmp as [err|file]; [reflexivity|].
  pose proof (Nat.div_mod_eq (length file) recordSize) as Hdm.
  pose proof (Nat.mod_upper_bound (length file) recordSize ltac:(discriminate)) as Hub.
  destruct (Nat.eqb_spec (length file mod recordSize) 0) as [E|E].
  - destruct (WtmpMetrics_whole_cases file (length file / recordSize) clock)
      as [[-> _]|[-> _]]; [lia|reflexivity|reflexivity].
  - unfold run, WtmpMetrics.
    rewrite (Read_truncated file (length file / recordSize)
               (length file mod recordSize)) by lia.
    reflexivity.
Qed.

End Appending.

(** ** The process counters together *)

Section Counters.

Lemma counter_of_once (c : byte) :
  (if decide (counter_of c = Some "wait"%string) then 1 else 0)
  + (if decide (counter_of c = Some "blocked"%string) then 1 else 0)
  + (if decide (counter_of c = Some "zombies"%string) then 1 else 0)
  + (if decide (counter_of c = Some "stopped"%string) then 1 else 0)
  + (if decide (counter_of c = Some "running"%string) then 1 else 0)
  + (if decide (counter_of c = Some "sleeping"%string) then 1 else 0)
  + (if decide (counter_of c = Some "idle"%string) then 1 else 0)
  + (if decide (counter_of c = Some "exit"%string) then 1 else 0)
  + (if decide (counter_of c = Some "unknown"%string) then 1 else 0)
  + (match counter_of c with Some _ => 0 | None => 1 end) = 1.
Proof.
  unfold counter_of.
  destruct (ascii_of_byte c) as [[] [] [] [] [] [] [] []]; reflexivity.
Qed.

(** Every code is tallied once: into one named counter, or as unknown to
    the collector. *)
Lemma tally_partition (cs : list byte) :
  Z.of_nat (length cs) =
  tally "wait" cs + tally "blocked" cs + tally "zombies" cs + tally "stopped" cs
  + tally "running" cs + tally "sleeping" cs + tally "idle" cs + tally "exit" cs
  + tally "unknown" cs + Z.of_nat (length (unrecognized cs)).
Proof.
  induction cs as [|c cs IH]; [reflexivity|].
  rewrite !tally_cons, unrecognized_cons. pose proof (counter_of_once c) as H1.
  cbn [length]. destruct (counter_of c); cbn [length]; lia.
Qed.

Lemma length_codes (tokens : list (list byte)) :
  (length (codes (process_tokens tokens)) <= length tokens)%nat.
Proof.
  assert (Hc : forall l : list (list byte), (length (codes l) <= length l)%nat).
  { induction l as [|t l IH]; [reflexivity|].
    unfold codes in *. cbn [omap list_omap]. destruct (head t); cbn [length]; lia. }
  unfold process_tokens. destruct tokens as [|t rest]; [reflexivity|].
  destruct (String.eqb _ _); [|apply Hc].
  pose proof (Hc rest). cbn [length]. lia.
Qed.

Variable toMetric : string -> MetricValue -> gmap string string -> option Metric.
Variable Fields : list byte -> list (list byte).

Hypothesis Fields_nonempty : forall out, Forall (fun t => t <> []) (Fields out).

(** X16. The counters of one pass add up: with fewer than 2^63 tokens, total is
    the sum of the nine named counters and of the number of lines logged
    for unknown states, no counter is negative, and the three samples that
    are emitted satisfy zombies + running <= total <= number of tokens. *)
Theorem PsMetrics_counters_add_up (out : list byte) :
  Z.of_nat (length (Fields out)) < 2 ^ 63 ->
  exists (fields : gmap string Z) (lg : list LogLine),
    run (PsMetrics_loop 0 (Fields out) ∅) = (Done fields, lg) /\
    get fields "total" =
    get fields "wait" + get fields "blocked" + get fields "zombies"
    + get fields "stopped" + get fields "running" + get fields "sleeping"
    + get fields "idle" + get fields "exit" + get fields "unknown"
    + Z.of_nat (length lg) /\
    (forall k : string, 0 <= get fields k) /\
    get fields "zombies" + get fields "running" <= get fields "total" /\
    get fields "total" <= Z.of_nat (length (Fields out)) /\
    run (PsMetrics toMetric Fields (inr out)) =
    (Done [toMetric "ps.zombies.num" (VInt64 (get fields "zombies")) ∅;
           toMetric "ps.running.num" (VInt64 (get fields "running")) ∅;
           toMetric "ps.total.num" (VInt64 (get fields "total")) ∅], lg).
Proof.
  intros Hsmall.
  destruct (PsMetrics_loop_start (Fields out) (Fields_nonempty out))
    as (fields & Hrun & Hk & Htot).
  set (cs := codes (process_tokens (Fields out))) in *.
  pose proof (length_codes (Fields out)) as Hlen. fold cs in Hlen.
  assert (Hget : forall k, k <> "total"%string -> get fields k = tally k cs).
  { intros k Hkt. rewrite (Hk k Hkt). apply int64_small.
    pose proof (tally_le_length k cs). lia. }
  assert (Htotal : get fields "total" = Z.of_nat (length cs))
    by (rewrite Htot; apply int64_small; lia).
  exists fields, (unknown_state_log cs).
  split; [exact Hrun|].
  pose proof (tally_partition cs) as Hpart.
  pose proof (tally_le_length "wait" cs). pose proof (tally_le_length "blocked" cs).
  pose proof (tally_le_length "zombies" cs). pose proof (tally_le_length "stopped" cs).
  pose proof (tally_le_length "running" cs). pose proof (tally_le_length "sleeping" cs).
  pose proof (tally_le_length "idle" cs). pose proof (tally_le_length "exit" cs).
  pose proof (tally_le_length "unknown" cs).
  split.
  { unfold unknown_state_log. rewrite length_map, Htotal.
    rewrite !Hget by discriminate. exact Hpart. }
  split.
  { intros k. destruct (decide (k = "total"%string)) as [->|Hkt].
    - rewrite Htotal. lia.
    - rewrite (Hget k Hkt). pose proof (tally_le_length k cs). lia. }
  split; [rewrite Htotal, !Hget by discriminate; lia|].
  split; [rewrite Htotal; lia|].
  unfold run in *. unfold PsMetrics, mbind, Exec_bind, bind. now rewrite Hrun.
Qed.

End Counters.

Lemma PsMetrics_counters_add_up_witness :
  (forall out, Forall (fun t => t <> []) (asciiFields out)) /\
  Z.of_nat (length (asciiFields ps_output)) < 2 ^ 63 /\
  exists (fields : gmap string Z) (lg : list LogLine),
    run (PsMetrics_loop 0 (asciiFields ps_output) ∅) = (Done fields, lg) /\
    get fields "zombies" + get fields "running" <= get fields "total".
Proof.
  assert (Hs : Z.of_nat (length (asciiFields ps_output)) < 2 ^ 63)
    by (vm_compute; reflexivity).
  split; [exact asciiFields_nonempty|]. split; [exact Hs|].
  destruct (PsMetrics_counters_add_up (toMetric_at 0) asciiFields asciiFields_nonempty
              ps_output Hs) as (fields & lg & Hrun & _ & _ & Hle & _).
  exists fields, lg. split; [exact Hrun|exact Hle].
Defined.

(** ** The bytes a normalised record depends on *)

Section Layout.

Lemma slice_agree (O L off len : nat) (b b' : list byte) :
  slice O L b = slice O L b' ->
  (O <= off)%nat -> (off + len <= O + L)%nat ->
  slice off len b = slice off len b'.
Proof.
  intros H Hlo Hhi.
  assert (E : forall x : list byte, slice off len x = slice (off - O) len (slice O L x)).
  { intros x. unfold slice. rewrite skipn_firstn_comm, take_take, drop_drop.
    f_equal; [lia|f_equal; lia]. }
  now rewrite (E b), (E b'), H.
Qed.

(** X13. The normalised record is a function of the bytes 0-1, 4-343 and
    348-363 of the raw record: the two alignment bytes, the microseconds
    and the reserved bytes are never looked at. *)
Theorem NewGoUtmp_bytes_read (b b' : list byte) :
  slice 0 2 b = slice 0 2 b' ->
  slice 4 340 b = slice 4 340 b' ->
  slice 348 16 b = slice 348 16 b' ->
  NewGoUtmp (decodeUtmp b) = NewGoUtmp (decodeUtmp b').
Proof.
  intros H0 H4 H348.
  assert (E4 : forall off len : nat,
             (4 <= off)%nat -> (off + len <= 344)%nat ->
             slice off len b = slice off len b')
    by (intros off len ? ?; apply (slice_agree 4 340); [exact H4|lia|lia]).
  assert (E348 : forall off len : nat,
             (348 <= off)%nat -> (off + len <= 364)%nat ->
             slice off len b = slice off len b')
    by (intros off len ? ?; apply (slice_agree 348 16); [exact H348|lia|lia]).
  unfold NewGoUtmp, decodeUtmp, LineSize, NameSize, HostSize.
  cbn [u_Type u_Pid u_Device u_Id u_User u_Host u_Exit u_Session u_Time u_Addr
       Termination Exit Sec].
  rewrite H0.
  rewrite (E4 4 4)%nat, (E4 8 32)%nat, (E4 40 4)%nat, (E4 44 32)%nat,
    (E4 76 256)%nat, (E4 332 2)%nat, (E4 334 2)%nat, (E4 336 4)%nat,
    (E4 340 4)%nat by lia.
  rewrite (E348 348 4)%nat, (E348 352 4)%nat, (E348 356 4)%nat,
    (E348 360 4)%nat by lia.
  reflexivity.
Qed.

Lemma NewGoUtmp_bytes_read_witness :
  slice 0 2 noisy_login = slice 0 2 two_logins /\
  slice 4 340 noisy_login = slice 4 340 two_logins /\
  slice 348 16 noisy_login = slice 348 16 two_logins /\
  noisy_login <> take 384 two_logins /\
  NewGoUtmp (decodeUtmp noisy_login) = NewGoUtmp (decodeUtmp two_logins).
Proof.
  assert (H0 : slice 0 2 noisy_login = slice 0 2 two_logins) by reflexivity.
  assert (H4 : slice 4 340 noisy_login = slice 4 340 two_logins) by reflexivity.
  assert (H348 : slice 348 16 noisy_login = slice 348 16 two_logins) by reflexivity.
  split; [exact H0|]. split; [exact H4|]. split; [exact H348|].
  split; [discriminate|].
  exact (NewGoUtmp_bytes_read noisy_login two_logins H0 H4 H348).
Defined.

End Layout.
